(** * outlook_calendar_checker: the polling-and-detection engine

    A shallow embedding of [src/outlook_calendar_checker/main.py]:
    the payload builder, the availability parser, the slot formatter,
    the notification fan-out and the poll loop, followed by the
    properties of these functions.

    Conventions.  Python values decoded from JSON are kept as a [json]
    tree; a Python exception is a value of [exn]; code that can raise
    returns a [result]; code that also talks to the outside world
    (HTTP, Twilio, logging, sleeping) runs in the monad [M], which
    records every such call in a trace. *)

From Stdlib Require Import ZArith List String Ascii Bool Lia.
From Stdlib Require Import Floats.SpecFloat.
Import ListNotations.
Open Scope string_scope.
Open Scope Z_scope.

Set Warnings "-register-all".

(** ** Exceptions *)

Module Py.

(** The exception classes the program can meet.  [JSONDecodeError] is
    the one of [requests]: a subclass of both [ValueError] and
    [RequestException].  [OverflowError] is an [ArithmeticError] and
    [OSError] is the base class of [RequestException]: neither is a
    [ValueError] or a [RequestException]. *)
Inductive exn : Type :=
| ValueError (msg : string)
| JSONDecodeError (msg : string)
| AttributeError (msg : string)
| TypeError (msg : string)
| OverflowError (msg : string)
| OSError (msg : string)
| RequestException (msg : string)
| TwilioException (msg : string).

(** [except ValueError] *)
Definition is_ValueError (e : exn) : bool :=
  match e with
  | ValueError _ | JSONDecodeError _ => true
  | _ => false
  end.

(** [except requests.exceptions.RequestException] *)
Definition is_RequestException (e : exn) : bool :=
  match e with
  | RequestException _ | JSONDecodeError _ => true
  | _ => false
  end.

(** [except Exception] *)
Definition is_Exception (e : exn) : bool := true.

Inductive result (A : Type) : Type :=
| Ok (a : A)
| Err (e : exn).
Arguments Ok {A} a.
Arguments Err {A} e.

Definition rbind {A B} (r : result A) (k : A -> result B) : result B :=
  match r with
  | Ok a => k a
  | Err e => Err e
  end.

(** ** JSON values, as [json.loads] produces them *)

Inductive json : Type :=
| JNull
| JBool (b : bool)
| JInt (n : Z)
| JFloat (f : spec_float)
| JStr (s : string)
| JList (l : list json)
| JDict (kvs : list (string * json)).

(** Python truthiness: [None], [False], zero, the empty string, the
    empty list and the empty dict are falsy. *)
Definition truthy (v : json) : bool :=
  match v with
  | JNull => false
  | JBool b => b
  | JInt n => negb (n =? 0)
  | JFloat (S754_zero _) => false
  | JFloat _ => true
  | JStr s => negb (s =? "")%string
  | JList l => match l with [] => false | _ => true end
  | JDict kvs => match kvs with [] => false | _ => true end
  end.

(** Lookup of a key in the pairs of a dict (the first binding wins). *)
Fixpoint assoc (k : string) (kvs : list (string * json)) : option json :=
  match kvs with
  | [] => None
  | (k', v) :: rest => if (k =? k')%string then Some v else assoc k rest
  end.

Definition type_name (v : json) : string :=
  match v with
  | JNull => "NoneType"
  | JBool _ => "bool"
  | JInt _ => "int"
  | JFloat _ => "float"
  | JStr _ => "str"
  | JList _ => "list"
  | JDict _ => "dict"
  end.

(** [obj.get(key, default)]: only a dict has the method. *)
Definition get_default (obj : json) (key : string) (default : json) : result json :=
  match obj with
  | JDict kvs =>
      match assoc key kvs with
      | Some v => Ok v
      | None => Ok default
      end
  | _ => Err (AttributeError (type_name obj ++ " object has no attribute 'get'"))
  end.

(** [obj.get(key)]: the default is [None]. *)
Definition get (obj : json) (key : string) : result json :=
  get_default obj key JNull.

Definition chars (s : string) : list json :=
  map (fun c => JStr (String c EmptyString)) (list_ascii_of_string s).

(** The elements a [for] loop visits: the items of a list, the
    characters of a string, the keys of a dict; the other values are
    not iterable. *)
Definition iter (v : json) : result (list json) :=
  match v with
  | JList l => Ok l
  | JStr s => Ok (chars s)
  | JDict kvs => Ok (map (fun kv => JStr (fst kv)) kvs)
  | _ => Err (TypeError (type_name v ++ " object is not iterable"))
  end.

(** [v == s] for a string literal [s]. *)
Definition eq_str (v : json) (s : string) : bool :=
  match v with
  | JStr s' => (s' =? s)%string
  | _ => false
  end.

(** [v in [s1, s2, ...]] for a list of string literals. *)
Definition in_strs (v : json) (l : list string) : bool :=
  existsb (eq_str v) l.

End Py.
Import Py.

Notation "x <- r ;; k" := (rbind r (fun x => k))
  (at level 100, r at next level, right associativity, only parsing).

(** ** The availability parser: lines 188-215 of [_parse_data] *)

(** A slot is the dict [{"startDateTime": ..., "endDateTime": ...}]
    appended to [available_slots]. *)
Record slot : Type := Slot { startDateTime : json; endDateTime : json }.

Definition BUSY : string := "BOOKINGSAVAILABILITYSTATUS_BUSY".
Definition OUT_OF_OFFICE : string := "BOOKINGSAVAILABILITYSTATUS_OUT_OF_OFFICE".

Definition missing_staff_response : exn :=
  ValueError "Missing 'staffAvailabilityResponse' in response.".
Definition missing_items : exn :=
  ValueError "Missing 'availabilityItems' in staff data.".
Definition missing_timestamps : exn :=
  ValueError "Missing 'startDateTime' or 'endDateTime' in item.".

(** The body of [for item in availability_items]: [None] when the
    item is skipped by [continue], the slot to append otherwise. *)
Definition parse_item (item : json) : result (option slot) :=
  status <- get item "status" ;;
  if in_strs status [BUSY; OUT_OF_OFFICE] then Ok None
  else
    sd <- get_default item "startDateTime" (JDict []) ;;
    start_time <- get sd "dateTime" ;;
    ed <- get_default item "endDateTime" (JDict []) ;;
    end_time <- get ed "dateTime" ;;
    if negb (truthy start_time) || negb (truthy end_time)
    then Err missing_timestamps
    else Ok (Some (Slot start_time end_time)).

(** The inner loop, threading [available_slots]. *)
Fixpoint parse_items (items : list json) (available_slots : list slot)
  : result (list slot) :=
  match items with
  | [] => Ok available_slots
  | item :: rest =>
      r <- parse_item item ;;
      parse_items rest
        (match r with
         | Some s => (available_slots ++ [s])%list
         | None => available_slots
         end)
  end.

(** The body of [for staff in staff_response]. *)
Definition parse_staff (staff : json) (available_slots : list slot)
  : result (list slot) :=
  availability_items <- get staff "availabilityItems" ;;
  match availability_items with
  | JNull => Err missing_items
  | _ =>
      items <- iter availability_items ;;
      parse_items items available_slots
  end.

(** The outer loop. *)
Fixpoint parse_staffs (staffs : list json) (available_slots : list slot)
  : result (list slot) :=
  match staffs with
  | [] => Ok available_slots
  | staff :: rest =>
      acc <- parse_staff staff available_slots ;;
      parse_staffs rest acc
  end.

Definition fixture_slot : slot :=
  Slot (JStr "2024-10-22T18:00:00") (JStr "2024-10-22T18:30:00").

(** The value of [available_slots] when control reaches line 217, or
    the exception raised before. *)
Definition available_slots (data : json) (send_notification_test : bool)
  : result (list slot) :=
  if send_notification_test then Ok [fixture_slot]
  else
    staff_response <- get data "staffAvailabilityResponse" ;;
    if negb (truthy staff_response) then Err missing_staff_response
    else
      staffs <- iter staff_response ;;
      parse_staffs staffs [].

(** ** The parser in the words of the specification

    The items of a response in staff-then-item order, the excluded
    statuses, and the slot an item stands for.  These are compared
    with [available_slots] below. *)

Definition field (obj : json) (key : string) : json :=
  match obj with
  | JDict kvs =>
      match assoc key kvs with
      | Some v => v
      | None => JNull
      end
  | _ => JNull
  end.

Definition elements (v : json) : list json :=
  match v with
  | JList l => l
  | _ => []
  end.

Definition staff_entries (data : json) : list json :=
  elements (field data "staffAvailabilityResponse").

Definition items_of (staff : json) : list json :=
  elements (field staff "availabilityItems").

Definition all_items (data : json) : list json :=
  flat_map items_of (staff_entries data).

Definition excluded (item : json) : bool :=
  in_strs (field item "status") [BUSY; OUT_OF_OFFICE].

Definition bookable (item : json) : bool := negb (excluded item).

Definition start_of (item : json) : json :=
  field (field item "startDateTime") "dateTime".

Definition end_of (item : json) : json :=
  field (field item "endDateTime") "dateTime".

Definition has_timestamps (item : json) : bool :=
  truthy (start_of item) && truthy (end_of item).

Definition slot_of (item : json) : slot :=
  Slot (start_of item) (end_of item).

Definition expected_slots (data : json) : list slot :=
  map slot_of (filter bookable (all_items data)).

(** The shape of a RawAvailabilityResponse (section 6 of the
    specification): an object whose [staffAvailabilityResponse], when
    present, is a list of objects whose [availabilityItems], when
    present, is a list of objects whose [startDateTime] and
    [endDateTime], when present, are objects.  Any field may be
    absent; the two list fields may also be null. *)

Definition object_or_absent (key : string) (kvs : list (string * json)) : bool :=
  match assoc key kvs with
  | None => true
  | Some (JDict _) => true
  | Some _ => false
  end.

Definition item_shape (item : json) : bool :=
  match item with
  | JDict kvs =>
      object_or_absent "startDateTime" kvs && object_or_absent "endDateTime" kvs
  | _ => false
  end.

Definition list_or_absent (shape : json -> bool) (key : string)
  (kvs : list (string * json)) : bool :=
  match assoc key kvs with
  | None => true
  | Some JNull => true
  | Some (JList l) => forallb shape l
  | Some _ => false
  end.

Definition staff_shape (staff : json) : bool :=
  match staff with
  | JDict kvs => list_or_absent item_shape "availabilityItems" kvs
  | _ => false
  end.

Definition response_shape (data : json) : bool :=
  match data with
  | JDict kvs => list_or_absent staff_shape "staffAvailabilityResponse" kvs
  | _ => false
  end.

(** Structural validity: the three requirements of the parser. *)
Definition staff_valid (staff : json) : bool :=
  match field staff "availabilityItems" with
  | JNull => false
  | _ => forallb (fun i => excluded i || has_timestamps i) (items_of staff)
  end.

Definition response_valid (data : json) : bool :=
  response_shape data
  && truthy (field data "staffAvailabilityResponse")
  && forallb staff_valid (staff_entries data).

(** ** Dates and times

    The part of Python's [datetime] the program uses.  A datetime is
    kept the way timedelta arithmetic sees it: the proleptic Gregorian
    ordinal of its date ([date.toordinal()], day 1 is 0001-01-01), the
    second of the day, the microsecond, and the UTC offset in seconds
    of an aware value ([None] for a naive one).  The calendar fields
    are read off the ordinal with CPython's [_ord2ymd].  The bounds of
    the type (years 1 to 9999) are checked where the program can leave
    them: in [fromisoformat] and in [astimezone]. *)

Module Datetime.

Record datetime : Type := mkDatetime {
  ordinal : Z;
  second_of_day : Z;
  microsecond : Z;
  utcoffset : option Z
}.

Definition is_leap (y : Z) : bool :=
  (y mod 4 =? 0) && (negb (y mod 100 =? 0) || (y mod 400 =? 0)).

Definition days_in_month (y m : Z) : Z :=
  if m =? 2 then (if is_leap y then 29 else 28)
  else if (m =? 4) || (m =? 6) || (m =? 9) || (m =? 11) then 30
  else 31.

(** [_DAYS_BEFORE_MONTH] of a common year. *)
Definition DAYS_BEFORE_MONTH (m : Z) : Z :=
  nth (Z.to_nat m) [0; 0; 31; 59; 90; 120; 151; 181; 212; 243; 273; 304; 334] 365.

Definition days_before_year (y : Z) : Z :=
  let y' := y - 1 in
  y' * 365 + y' / 4 - y' / 100 + y' / 400.

Definition days_before_month (y m : Z) : Z :=
  DAYS_BEFORE_MONTH m + (if (2 <? m) && is_leap y then 1 else 0).

Definition ymd2ord (y m d : Z) : Z :=
  days_before_year y + days_before_month y m + d.

(** CPython's [_ord2ymd]. *)
Definition ord2ymd (n0 : Z) : Z * Z * Z :=
  let n := n0 - 1 in
  let n400 := n / 146097 in
  let n := n mod 146097 in
  let n100 := n / 36524 in
  let n := n mod 36524 in
  let n4 := n / 1461 in
  let n := n mod 1461 in
  let n1 := n / 365 in
  let n := n mod 365 in
  let year := n400 * 400 + 1 + n100 * 100 + n4 * 4 + n1 in
  if (n1 =? 4) || (n100 =? 4) then (year - 1, 12, 31)
  else
    let leapyear := (n1 =? 3) && (negb (n4 =? 24) || (n100 =? 3)) in
    let month := Z.shiftr (n + 50) 5 in
    let preceding :=
      DAYS_BEFORE_MONTH month + (if (2 <? month) && leapyear then 1 else 0) in
    if n <? preceding then
      let month' := month - 1 in
      let preceding' :=
        preceding
        - (nth (Z.to_nat month') [0; 31; 28; 31; 30; 31; 30; 31; 31; 30; 31; 30; 31] 0
           + (if (month' =? 2) && leapyear then 1 else 0)) in
      (year, month', n - preceding' + 1)
    else (year, month, n - preceding + 1).

Definition year (dt : datetime) : Z := fst (fst (ord2ymd (ordinal dt))).
Definition month (dt : datetime) : Z := snd (fst (ord2ymd (ordinal dt))).
Definition day (dt : datetime) : Z := snd (ord2ymd (ordinal dt)).
Definition hour (dt : datetime) : Z := second_of_day dt / 3600.
Definition minute (dt : datetime) : Z := second_of_day dt / 60 mod 60.
Definition second (dt : datetime) : Z := second_of_day dt mod 60.

(** The ordinal [n] and the fields read off it name the same date. *)
Definition consistent_at (n : Z) : bool :=
  let '(y, m, d) := ord2ymd n in
  (ymd2ord y m d =? n) && (1 <=? m) && (m <=? 12) && (1 <=? d)
  && (d <=? days_in_month y m).

(** [p] holds at [first], [first + 1], ..., for [count] values. *)
Definition holds_on (p : Z -> bool) (first : Z) (count : positive) : bool :=
  snd (Pos.iter (fun st => (fst st + 1, snd st && p (fst st))) (first, true) count).

(** [date.weekday()]: Monday is 0. *)
Definition weekday_of_ordinal (n : Z) : Z := (n + 6) mod 7.

(** The reading of the wall clock, in seconds from the midnight that
    begins ordinal day 0. *)
Definition wall_clock (dt : datetime) : Z := ordinal dt * 86400 + second_of_day dt.

(** [datetime(y, m, d, hh, mm, ss, tzinfo=...)] *)
Definition make (y m d hh mm ss : Z) (off : option Z) : datetime :=
  mkDatetime (ymd2ord y m d) (hh * 3600 + mm * 60 + ss) 0 off.

(** [dt + timedelta(days=n)] *)
Definition add_days (dt : datetime) (n : Z) : datetime :=
  mkDatetime (ordinal dt + n) (second_of_day dt) (microsecond dt) (utcoffset dt).

(** [dt - timedelta(days=n)] *)
Definition sub_days (dt : datetime) (n : Z) : datetime := add_days dt (- n).

(** *** strftime *)

Definition digit (n : Z) : ascii := ascii_of_nat (48 + Z.to_nat (n mod 10)).

Definition pad2 (n : Z) : string :=
  String (digit (n / 10)) (String (digit n) "").

Definition pad4 (n : Z) : string := pad2 (n / 100) ++ pad2 n.

Definition month_abbr (m : Z) : string :=
  nth (Z.to_nat m)
    [""; "Jan"; "Feb"; "Mar"; "Apr"; "May"; "Jun";
     "Jul"; "Aug"; "Sep"; "Oct"; "Nov"; "Dec"] "".

(** The directives the program uses, in the C locale. *)
Definition directive (c : ascii) (dt : datetime) : string :=
  match c with
  | "Y"%char => pad4 (year dt)
  | "m"%char => pad2 (month dt)
  | "d"%char => pad2 (day dt)
  | "b"%char => month_abbr (month dt)
  | "I"%char => pad2 (let h := hour dt mod 12 in if h =? 0 then 12 else h)
  | "M"%char => pad2 (minute dt)
  | "p"%char => if hour dt <? 12 then "AM" else "PM"
  | _ => String "%" (String c "")
  end.

Fixpoint strftime_chars (fmt : list ascii) (dt : datetime) : string :=
  match fmt with
  | [] => ""
  | "%"%char :: c :: rest => directive c dt ++ strftime_chars rest dt
  | c :: rest => String c (strftime_chars rest dt)
  end.

(** [dt.strftime(fmt)] *)
Definition strftime (dt : datetime) (fmt : string) : string :=
  strftime_chars (list_ascii_of_string fmt) dt.

(** *** fromisoformat

    The strings [datetime.isoformat()] writes at whole seconds:
    [YYYY-MM-DD], then optionally a separator character and [HH:MM:SS],
    then optionally an offset [+HH:MM] or [-HH:MM].  Fields out of
    range make the string invalid.  Every version of Python reads these
    strings alike, and rejects a string that does not begin with a
    decimal digit.  The other strings that begin with a digit are
    answered here with [ValueError], which is what Python does for
    most of them but not for all: hours and minutes alone, fractions of
    a second and, from Python 3.11 on, further ISO 8601 forms are read
    by the library.  The properties below that depend on how a
    timestamp is read are stated for the strings of the first kind
    ([within_reach], [zone_qualified]). *)

Definition digit_val (c : ascii) : option Z :=
  let n := Z.of_nat (nat_of_ascii c) in
  if (48 <=? n) && (n <=? 57) then Some (n - 48) else None.

Definition two_digits (a b : ascii) : option Z :=
  match digit_val a, digit_val b with
  | Some x, Some y => Some (x * 10 + y)
  | _, _ => None
  end.

Definition parse_date (cs : list ascii) : option (Z * list ascii) :=
  match cs with
  | y1 :: y2 :: y3 :: y4 :: "-"%char :: m1 :: m2 :: "-"%char :: d1 :: d2 :: rest =>
      match two_digits y1 y2, two_digits y3 y4, two_digits m1 m2, two_digits d1 d2 with
      | Some yh, Some yl, Some m, Some d =>
          let y := yh * 100 + yl in
          if (1 <=? y) && (1 <=? m) && (m <=? 12) && (1 <=? d) && (d <=? days_in_month y m)
          then Some (ymd2ord y m d, rest)
          else None
      | _, _, _, _ => None
      end
  | _ => None
  end.

Definition parse_time (cs : list ascii) : option (Z * list ascii) :=
  match cs with
  | h1 :: h2 :: ":"%char :: m1 :: m2 :: ":"%char :: s1 :: s2 :: rest =>
      match two_digits h1 h2, two_digits m1 m2, two_digits s1 s2 with
      | Some h, Some m, Some s =>
          if (h <=? 23) && (m <=? 59) && (s <=? 59)
          then Some (h * 3600 + m * 60 + s, rest)
          else None
      | _, _, _ => None
      end
  | _ => None
  end.

Definition parse_offset (cs : list ascii) : option (option Z) :=
  match cs with
  | [] => Some None
  | [sign; h1; h2; ":"%char; m1; m2] =>
      match two_digits h1 h2, two_digits m1 m2 with
      | Some h, Some m =>
          if (h <=? 23) && (m <=? 59) then
            match sign with
            | "+"%char => Some (Some (h * 3600 + m * 60))
            | "-"%char => Some (Some (- (h * 3600 + m * 60)))
            | _ => None
            end
          else None
      | _, _ => None
      end
  | _ => None
  end.

Definition parse_iso (s : string) : option datetime :=
  match parse_date (list_ascii_of_string s) with
  | None => None
  | Some (ord, []) => Some (mkDatetime ord 0 0 None)
  | Some (ord, _ :: rest) =>
      match parse_time rest with
      | None => None
      | Some (sod, rest') =>
          match parse_offset rest' with
          | None => None
          | Some off => Some (mkDatetime ord sod 0 off)
          end
      end
  end.

(** [datetime.fromisoformat(v)] for a value taken from a slot. *)
Definition fromisoformat (v : json) : result datetime :=
  match v with
  | JStr s =>
      match parse_iso s with
      | Some dt => Ok dt
      | None => Err (ValueError ("Invalid isoformat string: " ++ s))
      end
  | _ => Err (TypeError "fromisoformat: argument must be str")
  end.

(** The midnight of ordinal day [n], printed in the format of the
    payload, reads back as itself. *)
Definition midnight_round_trips (n : Z) : bool :=
  match fromisoformat (JStr (strftime (mkDatetime n 0 0 None) "%Y-%m-%dT00:00:00")) with
  | Ok (mkDatetime o s us None) => (o =? n) && (s =? 0) && (us =? 0)
  | _ => false
  end.

(** *** Time zones *)

(** A zone gives the UTC offset, in seconds, in force at an instant;
    instants and wall-clock readings are counted in seconds from the
    midnight that begins ordinal day 0. *)
Definition zone : Type := Z -> Z.

Definition UTC : zone := fun _ => 0.

Definition fixed_offset (seconds : Z) : zone := fun _ => seconds.

(** The ordinal of the [k]-th Sunday of month [m] of year [y]. *)
Definition nth_sunday (y m k : Z) : Z :=
  let first := ymd2ord y m 1 in
  first + (6 - weekday_of_ordinal first) mod 7 + 7 * (k - 1).

(** [pytz.timezone('America/Los_Angeles')] under the rules in force
    since 2007: daylight time from 02:00 PST on the second Sunday of
    March to 02:00 PDT on the first Sunday of November.  The zone
    followed other rules before 2007, and the library reads its
    transitions from a table that ends in 2037: the definition is meant
    for the instants in between. *)
Definition America_Los_Angeles : zone := fun utc =>
  let y := fst (fst (ord2ymd ((utc - 8 * 3600) / 86400))) in
  let dst_start := nth_sunday y 3 2 * 86400 + 10 * 3600 in
  let dst_end := nth_sunday y 11 1 * 86400 + 9 * 3600 in
  if (dst_start <=? utc) && (utc <? dst_end) then - (7 * 3600) else - (8 * 3600).

(** The first and the last reading of the wall clock a [datetime] can
    hold: 0001-01-01T00:00:00 and 9999-12-31T23:59:59. *)
Definition MIN_WALL : Z := 1 * 86400.
Definition MAX_WALL : Z := 3652059 * 86400 + 86399.

Definition in_range (wall : Z) : bool := (MIN_WALL <=? wall) && (wall <=? MAX_WALL).

(** The [ValueError] of CPython's [utc_to_seconds] for a reading
    outside the years 1 to 9999. *)
Definition year_out_of_range (wall : Z) : exn :=
  ValueError (if wall <? MIN_WALL then "year 0 is out of range"
              else "year 10000 is out of range").

(** The offset of a naive [dt], presumed to represent time in the
    system time zone, that is, to be a reading [wall] of the host's
    local clock, whose zone [local] maps such a reading to its offset.
    CPython finds the offset by asking the C library for the local time
    of two instants, which here are the reading itself moved by the
    offset and the reading one day earlier, and raises [ValueError]
    when one of these falls outside the years 1 to 9999. *)
Definition local_offset (local : zone) (wall : Z) : result Z :=
  let o := local wall in
  if negb (in_range (wall + o)) then Err (year_out_of_range (wall + o))
  else if negb (in_range (wall - 86400)) then Err (year_out_of_range (wall - 86400))
  else Ok o.

(** [dt.astimezone(tz)]: [dt] is moved to UTC by its offset and from
    there to [tz] by [tz.fromutc]; each of the two additions raises
    [OverflowError] when its result leaves the years 1 to 9999. *)
Definition astimezone (local : zone) (tz : zone) (dt : datetime) : result datetime :=
  let wall := wall_clock dt in
  off <- match utcoffset dt with
         | Some o => Ok o
         | None => local_offset local wall
         end ;;
  let utc := wall - off in
  if negb (in_range utc) then Err (OverflowError "date value out of range")
  else
    let wall' := utc + tz utc in
    if negb (in_range wall') then Err (OverflowError "date value out of range")
    else Ok (mkDatetime (wall' / 86400) (wall' mod 86400) (microsecond dt)
               (Some (tz utc))).

End Datetime.
Import Datetime.

(** ** Effects

    Every call that leaves the process is recorded as an event; a
    computation yields the events it produced and either a value or
    the exception that ended it. *)

Inductive level : Type := DEBUG | INFO | ERROR.

(** One constructor per logging call of the program. *)
Inductive log_line : Type :=
| NoRecipients
| NotificationSent (recipient sid : string)
| SmsFailed (e : exn)
| GetFailed (status : Z) (text : string)
| GetSuccessful
| PostFailed (status : Z) (text : string)
| PostSuccessful
| ResponseData (data : json)
| JsonParseFailed (e : exn)
| NetworkError (e : exn)
| Waiting (polling_interval : Z)
| SlotsFound
| NoSlotsFound.

Inductive event : Type :=
| Log (lvl : level) (line : log_line)
| HttpGet (url : string)
| HttpPost (url : string) (payload : json)
| TimeSleep (seconds : Z)
| MessagesCreate (from_ body to : string).

Definition trace : Type := list event.

Definition M (A : Type) : Type := (trace * result A)%type.

Definition ret {A} (a : A) : M A := ([], Ok a).

Definition bind {A B} (m : M A) (k : A -> M B) : M B :=
  match m with
  | (t, Ok a) => let (t', r) := k a in ((t ++ t')%list, r)
  | (t, Err e) => (t, Err e)
  end.

Definition emit (ev : event) : M unit := ([ev], Ok tt).

Definition log (lvl : level) (line : log_line) : M unit := emit (Log lvl line).

Definition lift {A} (r : result A) : M A := ([], r).

(** [try: m  except <class> as e: handler e] *)
Definition try_except {A} (m : M A) (catches : exn -> bool) (handler : exn -> M A)
  : M A :=
  match m with
  | (t, Err e) =>
      if catches e then let (t', r) := handler e in ((t ++ t')%list, r) else (t, Err e)
  | _ => m
  end.

Notation "x <~ m ;; k" := (bind m (fun x => k))
  (at level 100, m at next level, right associativity, only parsing).
Notation "m ;;; k" := (bind m (fun _ => k))
  (at level 100, right associativity, only parsing).

(** ** Settings and surroundings *)

(** The module-level constants read from [config.yaml]. *)
Record settings : Type := {
  TIMEZONE : zone;
  OUTLOOK_EMAIL : string;
  GET_TOKEN : string;
  SERVICE_ID : json;
  STAFF_IDS : json;
  ACCOUNT_SID : string;
  AUTH_TOKEN : string;
  TWILIO_PHONE_NUMBER : string;
  RECIPIENT_PHONE_NUMBERS : list string
}.

Definition GET_URL (cfg : settings) : string :=
  "https://outlook.office365.com/book/" ++ OUTLOOK_EMAIL cfg ++ "/s/" ++ GET_TOKEN cfg.

Definition POST_URL (cfg : settings) : string :=
  "https://outlook.office365.com/BookingsService/api/V1/bookingBusinessesc2/"
  ++ OUTLOOK_EMAIL cfg ++ "/GetStaffAvailability?app=BookingsC2&n=7".

Record response : Type := {
  status_code : Z;
  text : string;
  json_body : result json      (* the outcome of [response.json()] *)
}.

(** What one poll cycle meets outside the process: the zone of the
    host's clock, the reading of [datetime.now(timezone.utc)], the
    outcome of the two requests (after the retries of the transport
    adapter), the behaviour of Twilio, and whether the operating system
    grants a sleep of a given number of seconds. *)
Record world : Type := {
  local_zone : zone;
  now_utc : datetime;
  session_get : result response;
  session_post : result response;
  Client : string -> string -> result unit;
  messages_create : string -> string -> string -> result string;
  sleep_granted : Z -> bool
}.

(** The longest sleep, in seconds, whose length in nanoseconds fits the
    64 bits of CPython's [_PyTime_t]. *)
Definition MAX_SLEEP : Z := 9223372036.

(** [time.sleep(seconds)] for an [int].  CPython converts the length to
    nanoseconds, which raises [OverflowError] beyond [MAX_SLEEP] in
    either direction; it then refuses a negative length; and it hands
    the rest to the operating system, which may refuse too (Linux
    answers [EINVAL] when the length added to its monotonic clock
    leaves 64 bits), in which case [OSError] is raised. *)
Definition time_sleep (w : world) (seconds : Z) : M unit :=
  if (seconds <? - MAX_SLEEP) || (MAX_SLEEP <? seconds) then
    lift (Err (OverflowError "timestamp too large to convert to C _PyTime_t"))
  else if seconds <? 0 then
    lift (Err (ValueError "sleep length must be non-negative"))
  else if sleep_granted w seconds then emit (TimeSleep seconds)
  else lift (Err (OSError "[Errno 22] Invalid argument")).

(** ** The payload builder

    [today] is the reading of [datetime.now(timezone.utc)]; the caller
    takes it from the world. *)

Definition start_date (today : datetime) : datetime := sub_days today 1.

Definition end_date (today : datetime) : datetime := add_days (start_date today) 12.

Definition PACIFIC : string := "Pacific Standard Time".

Definition _create_post_payload (cfg : settings) (today : datetime) : json :=
  let start_date_str := strftime (start_date today) "%Y-%m-%dT00:00:00" in
  let end_date_str := strftime (end_date today) "%Y-%m-%dT00:00:00" in
  JDict
    [("serviceId", SERVICE_ID cfg);
     ("staffIds", STAFF_IDS cfg);
     ("startDateTime",
       JDict [("dateTime", JStr start_date_str); ("timeZone", JStr PACIFIC)]);
     ("endDateTime",
       JDict [("dateTime", JStr end_date_str); ("timeZone", JStr PACIFIC)])].

(** ** The slot formatter *)

Definition nl : string := String (ascii_of_nat 10) "".

Definition format_slot (tz local : zone) (s : slot) : result string :=
  start <- fromisoformat (startDateTime s) ;;
  start_dt <- astimezone local tz start ;;
  end_ <- fromisoformat (endDateTime s) ;;
  end_dt <- astimezone local tz end_ ;;
  Ok (strftime start_dt "%b %d %I:%M%p" ++ " - " ++ strftime end_dt "%I:%M%p").

Fixpoint format_slots (tz local : zone) (slots : list slot) (formatted_slots : list string)
  : result (list string) :=
  match slots with
  | [] => Ok formatted_slots
  | s :: rest =>
      line <- format_slot tz local s ;;
      format_slots tz local rest (formatted_slots ++ [line])%list
  end.

Definition _format_available_slots (tz local : zone) (slots : list slot)
  : result string :=
  formatted_slots <- format_slots tz local slots [] ;;
  Ok (String.concat nl formatted_slots).

(** ** The notification fan-out *)

(** Whitespace as [str.strip()] sees it, among ASCII characters. *)
Definition whitespace (c : ascii) : bool :=
  let n := Z.of_nat (nat_of_ascii c) in
  ((9 <=? n) && (n <=? 13)) || ((28 <=? n) && (n <=? 32)).

Fixpoint lstrip (cs : list ascii) : list ascii :=
  match cs with
  | [] => []
  | c :: rest => if whitespace c then lstrip rest else cs
  end.

Definition strip (s : string) : string :=
  string_of_list_ascii (rev (lstrip (rev (lstrip (list_ascii_of_string s))))).

(** The [for recipient in RECIPIENT_PHONE_NUMBERS] loop. *)
Fixpoint send_each (cfg : settings) (w : world) (message : string)
  (recipients : list string) : M unit :=
  match recipients with
  | [] => ret tt
  | recipient :: rest =>
      let recipient := strip recipient in
      if negb (recipient =? "")%string then
        emit (MessagesCreate (TWILIO_PHONE_NUMBER cfg) message recipient) ;;;
        sid <~ lift (messages_create w (TWILIO_PHONE_NUMBER cfg) message recipient) ;;
        log DEBUG (NotificationSent recipient sid) ;;;
        send_each cfg w message rest
      else send_each cfg w message rest
  end.

Definition send_notification (cfg : settings) (w : world) (message : string) : M unit :=
  match RECIPIENT_PHONE_NUMBERS cfg with
  | [] => log ERROR NoRecipients
  | recipients =>
      try_except
        (lift (Client w (ACCOUNT_SID cfg) (AUTH_TOKEN cfg)) ;;;
         send_each cfg w message recipients)
        is_Exception
        (fun e => log ERROR (SmsFailed e))
  end.

(** ** Parse and notify: [_parse_data] *)

Definition notification_text (cfg : settings) (formatted_slots : string) : string :=
  "Booking Slots Available!" ++ nl ++ nl ++ formatted_slots ++ nl ++ nl
  ++ "Go to: " ++ GET_URL cfg.

Definition _parse_data (cfg : settings) (w : world) (data : json)
  (send_notification_test : bool) : M unit :=
  slots <~ lift (available_slots data send_notification_test) ;;
  match slots with
  | [] => log INFO NoSlotsFound
  | _ =>
      formatted_slots <~ lift (_format_available_slots (TIMEZONE cfg) (local_zone w) slots) ;;
      log INFO SlotsFound ;;;
      send_notification cfg w (notification_text cfg formatted_slots)
  end.

(** ** The poll loop: [check_availability] *)

(** How the [try] block of an iteration ends: by [continue], or by
    reaching the code after the block. *)
Inductive flow : Type := Continue | FallThrough.

(** The body of the inner [try]: decode the body and hand it to
    [_parse_data]. *)
Definition parse_stage (cfg : settings) (w : world) (send_notification_test : bool)
  (post_response : response) : M unit :=
  data <~ lift (json_body post_response) ;;
  log DEBUG (ResponseData data) ;;;
  _parse_data cfg w data send_notification_test.

Definition try_block (cfg : settings) (polling_interval : Z)
  (send_notification_test : bool) (w : world) : M flow :=
  emit (HttpGet (GET_URL cfg)) ;;;
  response <~ lift (session_get w) ;;
  if negb (status_code response =? 200) then
    log ERROR (GetFailed (status_code response) (text response)) ;;;
    time_sleep w polling_interval ;;;
    ret Continue
  else
    log INFO GetSuccessful ;;;
    let payload := _create_post_payload cfg (now_utc w) in
    emit (HttpPost (POST_URL cfg) payload) ;;;
    post_response <~ lift (session_post w) ;;
    if negb (status_code post_response =? 200) then
      log ERROR (PostFailed (status_code post_response) (text post_response)) ;;;
      time_sleep w polling_interval ;;;
      ret Continue
    else
      log INFO PostSuccessful ;;;
      try_except
        (parse_stage cfg w send_notification_test post_response)
        is_ValueError
        (fun e => log ERROR (JsonParseFailed e)) ;;;
      ret FallThrough.

(** One iteration of [while True]. *)
Definition iteration (cfg : settings) (polling_interval : Z)
  (send_notification_test : bool) (w : world) : M unit :=
  f <~ try_except
         (try_block cfg polling_interval send_notification_test w)
         is_RequestException
         (fun e => log ERROR (NetworkError e) ;;; ret FallThrough) ;;
  match f with
  | Continue => ret tt
  | FallThrough =>
      log INFO (Waiting polling_interval) ;;;
      time_sleep w polling_interval
  end.

(** The loop never returns: it is observed on the worlds its first
    iterations meet.  The outcome is the trace so far and, when an
    exception left an iteration, that exception, which ends the
    process. *)
Fixpoint check_availability (cfg : settings) (polling_interval : Z)
  (send_notification_test : bool) (worlds : list world) : trace * option exn :=
  match worlds with
  | [] => ([], None)
  | w :: rest =>
      match iteration cfg polling_interval send_notification_test w with
      | (t, Err e) => (t, Some e)
      | (t, Ok _) =>
          let (t', r) :=
            check_availability cfg polling_interval send_notification_test rest in
          ((t ++ t')%list, r)
      end
  end.

(** ** Observations on traces *)

Definition is_gateway_call (ev : event) : bool :=
  match ev with
  | MessagesCreate _ _ _ => true
  | _ => false
  end.

(** The invocations of the Notifier Gateway, in order. *)
Definition gateway_calls (t : trace) : list event := filter is_gateway_call t.

Definition is_post (ev : event) : bool :=
  match ev with
  | HttpPost _ _ => true
  | _ => false
  end.

(** The recipients the fan-out loop does not skip: the stripped,
    non-blank entries of the configured list, in order. *)
Definition targets (recipients : list string) : list string :=
  filter (fun r => negb (r =? "")%string) (map strip recipients).

(** The targets the loop reaches: each one in order, up to and
    including the first whose send fails. *)
Fixpoint attempted (send : string -> result string) (tos : list string) : list string :=
  match tos with
  | [] => []
  | to :: rest =>
      match send to with
      | Ok _ => to :: attempted send rest
      | Err _ => [to]
      end
  end.

Definition is_get (ev : event) : bool :=
  match ev with
  | HttpGet _ => true
  | _ => false
  end.

Definition is_sleep (ev : event) : bool :=
  match ev with
  | TimeSleep _ => true
  | _ => false
  end.

(** The events of an iteration up to the parse stage, when both
    requests returned 200. *)
Definition requests_ok (cfg : settings) (w : world) : trace :=
  [HttpGet (GET_URL cfg);
   Log INFO GetSuccessful;
   HttpPost (POST_URL cfg) (_create_post_payload cfg (now_utc w));
   Log INFO PostSuccessful].

(** The events that close an iteration which was not left by
    [continue]. *)
Definition closing (polling_interval : Z) : trace :=
  [Log INFO (Waiting polling_interval); TimeSleep polling_interval].

(** How the two handlers of the loop settle the outcome of the parse
    stage. *)
Definition settled (polling_interval : Z) (stage : M unit) : M unit :=
  match stage with
  | (t, Ok _) => ((t ++ closing polling_interval)%list, Ok tt)
  | (t, Err e) =>
      if is_ValueError e then
        ((t ++ Log ERROR (JsonParseFailed e) :: closing polling_interval)%list, Ok tt)
      else if is_RequestException e then
        ((t ++ Log ERROR (NetworkError e) :: closing polling_interval)%list, Ok tt)
      else (t, Err e)
  end.

(** A zone whose offsets are shorter than a day, as the offsets of a
    [tzinfo] are. *)
Definition zone_bounded (z : zone) : Prop := forall t, - 86400 < z t < 86400.

Definition is_digit (c : ascii) : bool :=
  match digit_val c with
  | Some _ => true
  | None => false
  end.

(** A string of one of the forms [YYYY-MM-DD], [YYYY-MM-DD?HH:MM:SS]
    and [YYYY-MM-DD?HH:MM:SS+HH:MM] whose date lies from 0001-01-03 to
    9999-12-29: two days inside the years 1 to 9999, so that no
    conversion between zones leaves them. *)
Definition within_reach (s : string) : bool :=
  match parse_iso s with
  | Some dt => (3 <=? ordinal dt) && (ordinal dt <=? 3652057)
  | None => false
  end.

(** A timestamp the formatter copes with: a string that does not begin
    with a decimal digit, which [fromisoformat] rejects with
    [ValueError], or a string within reach. *)
Definition timestamp_handled (v : json) : bool :=
  match v with
  | JStr (String c rest) => if is_digit c then within_reach (String c rest) else true
  | JStr EmptyString => true
  | _ => false
  end.

Definition slot_handled (s : slot) : bool :=
  timestamp_handled (startDateTime s) && timestamp_handled (endDateTime s).

(** The exceptions one of the two handlers of the loop catches. *)
Definition caught (e : exn) : bool := is_ValueError e || is_RequestException e.

(** A decoded body the parse stage copes with: in test mode any body,
    otherwise a response of the upstream shape whose slot timestamps
    are handled; and a decoding failure of a caught class. *)
Definition body_handled (test : bool) (body : result json) : Prop :=
  match body with
  | Err e => caught e = true
  | Ok data =>
      test = true
      \/ (response_shape data = true
          /\ forallb slot_handled (expected_slots data) = true)
  end.

(** A world whose failures are of the kinds the loop provides for: the
    operating system grants the sleep, the host's zone is bounded,
    requests fail with a [RequestException], and a body served with
    status 200 is handled. *)
Definition handled (polling_interval : Z) (test : bool) (w : world) : Prop :=
  sleep_granted w polling_interval = true
  /\ zone_bounded (local_zone w)
  /\ match session_get w with
     | Err e => is_RequestException e = true
     | Ok r1 =>
         status_code r1 = 200 ->
         match session_post w with
         | Err e => is_RequestException e = true
         | Ok r2 => status_code r2 = 200 -> body_handled test (json_body r2)
         end
     end.

(** The pairs [kvs] with the value of the first binding of [key], if
    there is one, replaced by [f] of it. *)
Fixpoint update (key : string) (f : json -> json) (kvs : list (string * json))
  : list (string * json) :=
  match kvs with
  | [] => []
  | (k, v) :: rest =>
      if (key =? k)%string then (k, f v) :: rest else (k, v) :: update key f rest
  end.

(** A response with the BUSY and OUT_OF_OFFICE items deleted from the
    item list of every staff entry, and nothing else changed. *)
Definition without_excluded (v : json) : json :=
  match v with
  | JList items => JList (filter bookable items)
  | _ => v
  end.

Definition prune_staff (staff : json) : json :=
  match staff with
  | JDict kvs => JDict (update "availabilityItems" without_excluded kvs)
  | _ => staff
  end.

Definition prune_staffs (v : json) : json :=
  match v with
  | JList staffs => JList (map prune_staff staffs)
  | _ => v
  end.

Definition prune (data : json) : json :=
  match data with
  | JDict kvs => JDict (update "staffAvailabilityResponse" prune_staffs kvs)
  | _ => data
  end.

(** The exception of the first target whose send fails, if any. *)
Fixpoint first_failure (send : string -> result string) (tos : list string) : option exn :=
  match tos with
  | [] => None
  | to :: rest =>
      match send to with
      | Ok _ => first_failure send rest
      | Err e => Some e
      end
  end.

(** ** Sample data *)

Module Sample.

Definition item (status start_ end_ : string) : json :=
  JDict [("status", JStr status);
         ("startDateTime", JDict [("dateTime", JStr start_)]);
         ("endDateTime", JDict [("dateTime", JStr end_)])].

Definition AVAILABLE : string := "BOOKINGSAVAILABILITYSTATUS_AVAILABLE".

Definition response_of (staffs : list json) : json :=
  JDict [("staffAvailabilityResponse", JList staffs)].

Definition staff_of (items : list json) : json :=
  JDict [("availabilityItems", JList items)].

(** Two staff entries with busy, free and out-of-office items. *)
Definition mixed : json :=
  response_of
    [staff_of [item BUSY "2024-10-22T16:00:00+00:00" "2024-10-22T16:30:00+00:00";
               item AVAILABLE "2024-10-22T18:00:00+00:00" "2024-10-22T18:30:00+00:00"];
     staff_of [item AVAILABLE "2024-10-21T17:00:00+00:00" "2024-10-21T17:30:00+00:00";
               item OUT_OF_OFFICE "2024-10-23T16:00:00+00:00" "2024-10-23T16:30:00+00:00"]].

Definition all_busy : json :=
  response_of
    [staff_of [item BUSY "2024-10-22T16:00:00+00:00" "2024-10-22T16:30:00+00:00";
               item OUT_OF_OFFICE "2024-10-23T16:00:00+00:00" "2024-10-23T16:30:00+00:00"]].

(** A staff entry without [availabilityItems]. *)
Definition staff_without_items : json :=
  response_of [staff_of []; JDict [("staffId", JStr "s2")]].

(** A free item without [endDateTime]. *)
Definition item_without_end : json :=
  JDict [("status", JStr AVAILABLE);
         ("startDateTime", JDict [("dateTime", JStr "2024-10-22T18:00:00+00:00")])].

Definition free_item_without_end : json :=
  response_of
    [staff_of [item AVAILABLE "2024-10-21T17:00:00+00:00" "2024-10-21T17:30:00+00:00";
               item_without_end]].


(** A free item whose [startDateTime] is null. *)
Definition item_with_null_start : json :=
  JDict [("status", JStr AVAILABLE);
         ("startDateTime", JNull);
         ("endDateTime", JDict [("dateTime", JStr "2024-10-22T18:30:00+00:00")])].

Definition free_item_with_null_start : json :=
  response_of [staff_of [item_with_null_start]].

(** A free item whose timestamps are null. *)
Definition null_timestamps : json :=
  response_of
    [staff_of [JDict [("status", JStr AVAILABLE);
                      ("startDateTime", JNull);
                      ("endDateTime", JNull)]]].

Definition cfg (recipients : list string) : settings := {|
  TIMEZONE := America_Los_Angeles;
  OUTLOOK_EMAIL := "clinic@example.com";
  GET_TOKEN := "tok";
  SERVICE_ID := JStr "service-1";
  STAFF_IDS := JList [JStr "staff-1"; JStr "staff-2"];
  ACCOUNT_SID := "AC0";
  AUTH_TOKEN := "secret";
  TWILIO_PHONE_NUMBER := "+15550000";
  RECIPIENT_PHONE_NUMBERS := recipients
|}.

Definition http (status : Z) (body : result json) : result response :=
  Ok {| status_code := status; text := ""; json_body := body |}.

(** A send that succeeds for every recipient. *)
Definition delivers : string -> string -> string -> result string :=
  fun _ _ _ => Ok "SM1".

(** A send that fails for one recipient. *)
Definition fails_for (bad : string) : string -> string -> string -> result string :=
  fun _ _ to =>
    if (to =? bad)%string then Err (TwilioException "unreachable") else Ok "SM1".

Definition world_of (local : zone) (get_ post : result response)
  (send : string -> string -> string -> result string) : world := {|
  local_zone := local;
  now_utc := make 2024 10 10 0 0 0 (Some 0);
  session_get := get_;
  session_post := post;
  Client := fun _ _ => Ok tt;
  messages_create := send;
  sleep_granted := fun _ => true
|}.

(** The booking page is HTML: [response.json()] would fail on it. *)
Definition page : result response := http 200 (Err (JSONDecodeError "Expecting value")).

(** A host on UTC whose requests and sends all succeed. *)
Definition serving (body : json) : world :=
  world_of UTC page (http 200 (Ok body)) delivers.

Definition quiet : world := serving all_busy.

(** A GET answered 503.  (The transport adapter retries this status
    and raises [RetryError], a [RequestException], when it persists:
    the loop itself only sees such a response from a session without
    the adapter.) *)
Definition get_503 : world :=
  world_of UTC (http 503 (Err (JSONDecodeError "Expecting value"))) (http 200 (Ok mixed)) delivers.

(** The booking page is not found: a status the transport adapter does
    not retry. *)
Definition get_404 : world :=
  world_of UTC (http 404 (Err (JSONDecodeError "Expecting value"))) (http 200 (Ok mixed)) delivers.

Definition first_send_fails : world :=
  world_of UTC page (http 200 (Ok mixed)) (fails_for "+15550001").

Definition second_send_fails : world :=
  world_of UTC page (http 200 (Ok mixed)) (fails_for "+15550002").

(** A host on which the Twilio client cannot be built. *)
Definition no_client : world := {|
  local_zone := UTC;
  now_utc := make 2024 10 10 0 0 0 (Some 0);
  session_get := page;
  session_post := http 200 (Ok mixed);
  Client := fun _ _ => Err (TwilioException "Credentials are required");
  messages_create := delivers;
  sleep_granted := fun _ => true
|}.

(** A host whose clock is on UTC-7 all year. *)
Definition host_utc_minus_7 : world :=
  world_of (fixed_offset (- (7 * 3600))) page (http 200 (Ok mixed)) delivers.

(** A host on UTC that is served a free item with null timestamps. *)
Definition served_null_timestamps : world := serving null_timestamps.

Definition one_recipient : settings := cfg ["+15550001"].
Definition two_recipients : settings := cfg ["+15550001"; "+15550002"].
Definition three_recipients : settings := cfg ["+15550001"; " +15550002 "; "+15550003"].
Definition no_recipients : settings := cfg [].

End Sample.

(** ** Finding and loading the configuration

    [find_config_file] and [load_config], on POSIX paths.  An absolute,
    normalised path is the list of its components below the root, so
    the root itself is the empty list; the file name looked for is one
    component. *)

Module Config.

Definition path : Type := list string.

(** [os.path.join(dir, name)] *)
Definition join (dir : path) (name : string) : path := (dir ++ [name])%list.

(** [os.path.dirname(p)]: the root is its own parent. *)
Definition dirname (p : path) : path := removelast p.

Definition path_eqb (p q : path) : bool :=
  if list_eq_dec string_dec p q then true else false.

(** The [while True] loop of [find_config_file], started in
    [current_dir].  Each turn goes one directory up, so the loop makes
    at most one turn per component of the starting directory and one
    for the root: [turns] bounds them. *)
Fixpoint search_upwards (exists_ : path -> bool) (filename : string)
  (turns : nat) (current_dir : path) : option path :=
  match turns with
  | O => None
  | S turns' =>
      let config_path := join current_dir filename in
      if exists_ config_path then Some config_path
      else
        let parent_dir := dirname current_dir in
        if path_eqb current_dir parent_dir then None
        else search_upwards exists_ filename turns' parent_dir
  end.

(** [find_config_file(filename)] in a process whose working directory
    is [cwd], on a file system where [exists_] tells which paths
    exist. *)
Definition find_config_file (exists_ : path -> bool) (cwd : path)
  (filename : string) : option path :=
  search_upwards exists_ filename (S (List.length cwd)) cwd.

(** The directories from [cwd] up to the root: the prefixes of [cwd]. *)
Definition ancestor (cwd : path) (k : nat) : path := firstn k cwd.

Inductive startup_exn : Type :=
| FileNotFoundError (msg : string)
| YAMLError (msg : string).

Inductive startup_event : Type :=
| Chdir (dir : path)
| LogUsingConfig (config_path : path)
| OpenRead (config_path : path).

(** The file system as [load_config] meets it: which paths exist, and
    what [yaml.safe_load] makes of a file. *)
Record filesystem : Type := {
  exists_ : path -> bool;
  safe_load : path -> startup_exn + json
}.

Definition load_config (fs : filesystem) (cwd : path) (config_file : string)
  : list startup_event * (startup_exn + json) :=
  match find_config_file (exists_ fs) cwd config_file with
  | None =>
      ([], inl (FileNotFoundError
                  ("'" ++ config_file ++ "' not found in any parent directories.")))
  | Some config_path =>
      ([Chdir (dirname config_path); LogUsingConfig config_path; OpenRead config_path],
       safe_load fs config_path)
  end.

(** The working directory after [load_config]. *)
Definition cwd_after (cwd : path) (events : list startup_event) : path :=
  fold_left (fun d ev => match ev with Chdir d' => d' | _ => d end) events cwd.

End Config.

(** ** More observations *)

(** The log entries that report a delivered message. *)
Definition is_sent_log (ev : event) : bool :=
  match ev with
  | Log DEBUG (NotificationSent _ _) => true
  | _ => false
  end.

(** The targets delivered before the first failing send, each with the
    SID Twilio returned. *)
Fixpoint delivered (send : string -> result string) (tos : list string)
  : list (string * string) :=
  match tos with
  | [] => []
  | to :: rest =>
      match send to with
      | Ok sid => (to, sid) :: delivered send rest
      | Err _ => []
      end
  end.

(** The events of the parse stage: log entries and gateway calls. *)
Definition is_local (ev : event) : bool :=
  match ev with
  | Log _ _ => true
  | MessagesCreate _ _ _ => true
  | _ => false
  end.

(** A timestamp that carries its UTC offset: a string of the form
    [YYYY-MM-DD?HH:MM:SS+HH:MM] or [YYYY-MM-DD?HH:MM:SS-HH:MM]. *)
Definition zone_qualified (v : json) : bool :=
  match fromisoformat v with
  | Ok dt => match utcoffset dt with Some _ => true | None => false end
  | Err _ => false
  end.

Definition slot_zone_qualified (s : slot) : bool :=
  zone_qualified (startDateTime s) && zone_qualified (endDateTime s).

Definition starts_with_whitespace (cs : list ascii) : bool :=
  match cs with
  | c :: _ => whitespace c
  | [] => false
  end.

(** No whitespace at either end. *)
Definition trimmed (s : string) : bool :=
  negb (starts_with_whitespace (list_ascii_of_string s))
  && negb (starts_with_whitespace (rev (list_ascii_of_string s))).

Definition call_to (ev : event) : string :=
  match ev with
  | MessagesCreate _ _ to => to
  | _ => ""
  end.

(** The log entry of a delivered message. *)
Definition sent_entry (p : string * string) : event :=
  Log DEBUG (NotificationSent (fst p) (snd p)).

(** * Properties *)

(** ** The parser *)

Lemma rbind_ok {A B} (r : result A) (k : A -> result B) (b : B) :
  rbind r k = Ok b -> exists a, r = Ok a /\ k a = Ok b.
Proof. destruct r as [a|e]; simpl; intros H; [eauto | discriminate]. Qed.

Lemma get_field (obj : json) (key : string) (v : json) :
  get obj key = Ok v -> v = field obj key.
Proof.
  unfold get, get_default, field.
  destruct obj; try discriminate.
  destruct (assoc key kvs); congruence.
Qed.

Lemma get_default_field (obj : json) (key : string) (v : json) :
  get_default obj key (JDict []) = Ok v -> field v "dateTime" = field (field obj key) "dateTime".
Proof.
  unfold get_default, field at 2 3.
  destruct obj; try discriminate.
  destruct (assoc key kvs); intros H; inversion H; reflexivity.
Qed.

(** What an item contributes when its iteration does not raise. *)
Lemma parse_item_ok (item : json) (r : option slot) :
  parse_item item = Ok r ->
  r = (if excluded item then None else Some (slot_of item))
  /\ (excluded item || has_timestamps item) = true.
Proof.
  unfold parse_item. intros H.
  apply rbind_ok in H as (status & Hs & H).
  apply get_field in Hs. subst status. fold (excluded item) in H.
  destruct (excluded item); [inversion H; auto|].
  apply rbind_ok in H as (sd & Hsd & H).
  apply rbind_ok in H as (start_time & Hst & H).
  apply rbind_ok in H as (ed & Hed & H).
  apply rbind_ok in H as (end_time & Het & H).
  apply get_field in Hst, Het.
  apply get_default_field in Hsd, Hed.
  rewrite Hsd in Hst. rewrite Hed in Het.
  fold (start_of item) in Hst. fold (end_of item) in Het. subst.
  unfold has_timestamps, slot_of.
  destruct (truthy (start_of item)), (truthy (end_of item)); simpl in H;
    try discriminate.
  inversion H; auto.
Qed.

Lemma parse_items_ok (items : list json) :
  forall acc r,
    parse_items items acc = Ok r ->
    r = (acc ++ map slot_of (filter bookable items))%list
    /\ forallb (fun i => excluded i || has_timestamps i) items = true.
Proof.
  induction items as [|item rest IH]; simpl; intros acc r H.
  - inversion H. now rewrite app_nil_r.
  - apply rbind_ok in H as (o & Ho & H).
    apply parse_item_ok in Ho as (-> & Hi).
    apply IH in H as (-> & Hrest).
    rewrite Hi, Hrest. split; [|reflexivity].
    unfold bookable at 2.
    destruct (excluded item); simpl; [reflexivity|].
    now rewrite <- app_assoc.
Qed.

Lemma parse_items_nil (items : list json) (acc r : list slot) :
  parse_items items acc = Ok r ->
  (forall i, In i items -> exists s, i = JStr s) ->
  items = [].
Proof.
  destruct items as [|i rest]; [reflexivity|]. simpl. intros H Hstr.
  destruct (Hstr i (or_introl eq_refl)) as (s & ->). discriminate H.
Qed.

Lemma chars_strs (s : string) : forall i, In i (chars s) -> exists c, i = JStr c.
Proof. unfold chars. intros i Hi. apply in_map_iff in Hi as (c & <- & _). eauto. Qed.

Lemma keys_strs (kvs : list (string * json)) :
  forall i, In i (map (fun kv => JStr (fst kv)) kvs) -> exists c, i = JStr c.
Proof. intros i Hi. apply in_map_iff in Hi as (c & <- & _). eauto. Qed.

Lemma parse_staff_ok (staff : json) (acc r : list slot) :
  parse_staff staff acc = Ok r ->
  r = (acc ++ map slot_of (filter bookable (items_of staff)))%list
  /\ staff_valid staff = true.
Proof.
  unfold parse_staff, staff_valid, items_of. intros H.
  apply rbind_ok in H as (ai & Hai & H).
  apply get_field in Hai. rewrite <- Hai.
  destruct ai; try discriminate H; simpl in H |- *.
  - pose proof (parse_items_nil _ _ _ H (chars_strs s)) as Hnil.
    rewrite Hnil in H. inversion H. now rewrite app_nil_r.
  - now apply parse_items_ok.
  - pose proof (parse_items_nil _ _ _ H (keys_strs kvs)) as Hnil.
    rewrite Hnil in H. inversion H. now rewrite app_nil_r.
Qed.

Lemma parse_staffs_ok (staffs : list json) :
  forall acc r,
    parse_staffs staffs acc = Ok r ->
    r = (acc ++ map slot_of (filter bookable (flat_map items_of staffs)))%list
    /\ forallb staff_valid staffs = true.
Proof.
  induction staffs as [|staff rest IH]; simpl; intros acc r H.
  - inversion H. now rewrite app_nil_r.
  - apply rbind_ok in H as (acc' & Hs & H).
    apply parse_staff_ok in Hs as (-> & Hv).
    apply IH in H as (-> & Hrest).
    rewrite Hv, Hrest. split; [|reflexivity].
    now rewrite filter_app, map_app, app_assoc.
Qed.

Lemma parse_staffs_nil (staffs : list json) (acc r : list slot) :
  parse_staffs staffs acc = Ok r ->
  (forall i, In i staffs -> exists s, i = JStr s) ->
  staffs = [].
Proof.
  destruct staffs as [|i rest]; [reflexivity|]. simpl. intros H Hstr.
  destruct (Hstr i (or_introl eq_refl)) as (s & ->). discriminate H.
Qed.

(** When the parser returns, it returns the bookable items of the
    response, and the response meets the parser's three requirements. *)
Lemma available_slots_sound (data : json) (slots : list slot) :
  available_slots data false = Ok slots ->
  slots = expected_slots data
  /\ truthy (field data "staffAvailabilityResponse") = true
  /\ forallb staff_valid (staff_entries data) = true.
Proof.
  unfold available_slots, expected_slots, all_items, staff_entries. intros H.
  apply rbind_ok in H as (sr & Hsr & H).
  apply get_field in Hsr. rewrite <- Hsr.
  destruct (truthy sr) eqn:Ht; [|discriminate H]. simpl in H.
  apply rbind_ok in H as (staffs & Hit & H).
  destruct sr; try discriminate Hit; simpl in Hit; inversion Hit; subst staffs; clear Hit.
  - pose proof (parse_staffs_nil _ _ _ H (chars_strs s)) as Hnil.
    destruct s; [discriminate Ht | discriminate Hnil].
  - apply parse_staffs_ok in H as (-> & Hv). auto.
  - pose proof (parse_staffs_nil _ _ _ H (keys_strs kvs)) as Hnil.
    destruct kvs; [discriminate Ht | discriminate Hnil].
Qed.

(** On a response of the expected shape the parser either returns or
    raises [ValueError], and it raises only when one of its three
    requirements fails. *)

Lemma parse_item_shape (item : json) :
  item_shape item = true ->
  (exists r, parse_item item = Ok r)
  \/ (parse_item item = Err missing_timestamps
      /\ (excluded item || has_timestamps item) = false).
Proof.
  destruct item; try discriminate. intros Hs.
  apply andb_prop in Hs as (Hsd & Hed).
  unfold parse_item.
  assert (Hst : get (JDict kvs) "status" = Ok (field (JDict kvs) "status")).
  { unfold get, get_default, field. destruct (assoc "status" kvs); reflexivity. }
  rewrite Hst. cbn [rbind]. fold (excluded (JDict kvs)).
  destruct (excluded (JDict kvs)); [left; eauto|].
  unfold has_timestamps, start_of, end_of, object_or_absent, get, get_default, field in *.
  destruct (assoc "startDateTime" kvs) as [[]|]; try discriminate Hsd;
    destruct (assoc "endDateTime" kvs) as [[]|]; try discriminate Hed;
    cbn [rbind assoc];
    repeat match goal with
      | |- context [assoc "dateTime" ?k] => destruct (assoc "dateTime" k)
      end; cbn [rbind];
    repeat match goal with
      | |- context [truthy ?v] => destruct (truthy v)
      end; cbn; eauto.
Qed.

Lemma parse_items_shape (items : list json) :
  forallb item_shape items = true ->
  forall acc,
    (exists r, parse_items items acc = Ok r)
    \/ (parse_items items acc = Err missing_timestamps
        /\ forallb (fun i => excluded i || has_timestamps i) items = false).
Proof.
  induction items as [|item rest IH]; simpl; intros Hs acc; [left; eauto|].
  apply andb_prop in Hs as (Hi & Hrest).
  destruct (parse_item_shape item Hi) as [(r & Hr) | (Hr & Hbad)].
  - rewrite Hr. simpl. apply parse_item_ok in Hr as (_ & ->). simpl.
    apply IH; assumption.
  - rewrite Hr, Hbad. simpl. auto.
Qed.

Lemma parse_staff_shape (staff : json) (acc : list slot) :
  staff_shape staff = true ->
  (exists r, parse_staff staff acc = Ok r)
  \/ (exists msg, parse_staff staff acc = Err (ValueError msg)
                  /\ staff_valid staff = false).
Proof.
  destruct staff; try discriminate.
  unfold staff_shape, list_or_absent, parse_staff, staff_valid, items_of. simpl.
  destruct (assoc "availabilityItems" kvs) as [[]|]; try discriminate; simpl;
    intros Hs; try (right; eexists; split; reflexivity).
  destruct (parse_items_shape l Hs acc) as [Hok | (-> & Hbad)]; [left; exact Hok|].
  right. eexists. split; [reflexivity | exact Hbad].
Qed.

Lemma parse_staffs_shape (staffs : list json) :
  forallb staff_shape staffs = true ->
  forall acc,
    (exists r, parse_staffs staffs acc = Ok r)
    \/ (exists msg, parse_staffs staffs acc = Err (ValueError msg)
                    /\ forallb staff_valid staffs = false).
Proof.
  induction staffs as [|staff rest IH]; simpl; intros Hs acc; [left; eauto|].
  apply andb_prop in Hs as (Hi & Hrest).
  destruct (parse_staff_shape staff acc Hi) as [(r & Hr) | (msg & Hr & Hbad)].
  - rewrite Hr. simpl. apply parse_staff_ok in Hr as (_ & ->). simpl.
    apply IH; assumption.
  - rewrite Hr, Hbad. simpl. eauto.
Qed.

Lemma available_slots_shape (data : json) :
  response_shape data = true ->
  (exists slots, available_slots data false = Ok slots)
  \/ (exists msg, available_slots data false = Err (ValueError msg)
                  /\ (truthy (field data "staffAvailabilityResponse")
                      && forallb staff_valid (staff_entries data)) = false).
Proof.
  destruct data; try discriminate.
  unfold response_shape, list_or_absent, available_slots, staff_entries. simpl.
  destruct (assoc "staffAvailabilityResponse" kvs) as [[]|]; try discriminate; simpl;
    intros Hs; try (right; eexists; split; reflexivity).
  destruct l as [|staff rest]; simpl; [right; eexists; split; reflexivity|].
  exact (parse_staffs_shape (staff :: rest) Hs []).
Qed.

(** The parser returns on every structurally valid response. *)
Lemma available_slots_complete (data : json) :
  response_valid data = true ->
  available_slots data false = Ok (expected_slots data).
Proof.
  unfold response_valid. intros H.
  apply andb_prop in H as (H & Hv). apply andb_prop in H as (Hs & Ht).
  destruct (available_slots_shape data Hs) as [(slots & Hok) | (msg & _ & Hbad)].
  - rewrite Hok. now apply available_slots_sound in Hok as (-> & _).
  - rewrite Ht, Hv in Hbad. discriminate.
Qed.

Lemma staff_valid_items (staffs : list json) (i : json) :
  forallb staff_valid staffs = true ->
  In i (flat_map items_of staffs) ->
  (excluded i || has_timestamps i) = true.
Proof.
  intros Hv Hin. apply in_flat_map in Hin as (staff & Hs & Hi).
  rewrite forallb_forall in Hv. specialize (Hv staff Hs).
  unfold staff_valid in Hv.
  destruct (field staff "availabilityItems"); try discriminate Hv;
    rewrite forallb_forall in Hv; now apply Hv.
Qed.

(** C2.  When the parser accepts a response, [available_slots] is the
    list of the items whose status is neither BUSY nor OUT_OF_OFFICE,
    in staff-then-item order, each as the slot of its two timestamps,
    which are both present; nothing is sorted or merged. *)
Theorem C2_parser_returns_the_bookable_items
  (data : json) (slots : list slot)
  (Haccepted : available_slots data false = Ok slots) :
  slots = map slot_of (filter bookable (flat_map items_of (staff_entries data)))
  /\ (List.length slots + List.length (filter excluded (all_items data))
      = List.length (all_items data))%nat
  /\ (forall i, In i (all_items data) -> excluded i = false ->
        In (Slot (start_of i) (end_of i)) slots
        /\ truthy (start_of i) = true /\ truthy (end_of i) = true).
Proof.
  apply available_slots_sound in Haccepted as (-> & _ & Hv).
  split; [reflexivity|]. split.
  - unfold expected_slots. rewrite length_map, Nat.add_comm.
    apply (filter_length excluded).
  - intros i Hin Hex.
    pose proof (staff_valid_items _ _ Hv Hin) as Hts.
    rewrite Hex in Hts. apply andb_prop in Hts as (Hs & He).
    split; [|auto].
    unfold expected_slots. apply (in_map slot_of). apply filter_In.
    split; [exact Hin|]. unfold bookable. now rewrite Hex.
Qed.

Lemma C2_parser_returns_the_bookable_items_witness :
  [Slot (JStr "2024-10-22T18:00:00+00:00") (JStr "2024-10-22T18:30:00+00:00");
   Slot (JStr "2024-10-21T17:00:00+00:00") (JStr "2024-10-21T17:30:00+00:00")]
  = map slot_of (filter bookable (flat_map items_of (staff_entries Sample.mixed)))
  /\ (List.length
        [Slot (JStr "2024-10-22T18:00:00+00:00") (JStr "2024-10-22T18:30:00+00:00");
         Slot (JStr "2024-10-21T17:00:00+00:00") (JStr "2024-10-21T17:30:00+00:00")]
      + List.length (filter excluded (all_items Sample.mixed))
      = List.length (all_items Sample.mixed))%nat
  /\ (forall i, In i (all_items Sample.mixed) -> excluded i = false ->
        In (Slot (start_of i) (end_of i))
          [Slot (JStr "2024-10-22T18:00:00+00:00") (JStr "2024-10-22T18:30:00+00:00");
           Slot (JStr "2024-10-21T17:00:00+00:00") (JStr "2024-10-21T17:30:00+00:00")]
        /\ truthy (start_of i) = true /\ truthy (end_of i) = true).
Proof.
  apply (C2_parser_returns_the_bookable_items Sample.mixed). reflexivity.
Defined.

(** C3.  On a response of the upstream shape, an absent (or null)
    [staffAvailabilityResponse] makes the parser raise [ValueError],
    and so does a staff entry whose [availabilityItems] is absent (or
    null): no slot list is produced. *)
Theorem C3_missing_fields_raise_ValueError
  (data : json)
  (Hshape : response_shape data = true) :
  (field data "staffAvailabilityResponse" = JNull ->
     available_slots data false = Err missing_staff_response)
  /\ (forall staff,
        In staff (staff_entries data) ->
        field staff "availabilityItems" = JNull ->
        exists msg, available_slots data false = Err (ValueError msg)).
Proof.
  split.
  - intros Hnull. destruct data; try discriminate Hshape.
    unfold available_slots, get, get_default. unfold field in Hnull.
    destruct (assoc "staffAvailabilityResponse" kvs); [subst j|]; reflexivity.
  - intros staff Hin Hnull.
    destruct (available_slots_shape data Hshape) as [(slots & Hok) | (msg & Herr & _)];
      [|eauto].
    apply available_slots_sound in Hok as (_ & _ & Hv).
    rewrite forallb_forall in Hv. specialize (Hv staff Hin).
    unfold staff_valid in Hv. rewrite Hnull in Hv. discriminate.
Qed.

Lemma C3_missing_fields_raise_ValueError_witness :
  available_slots (JDict [("error", JStr "throttled")]) false = Err missing_staff_response
  /\ exists msg, available_slots Sample.staff_without_items false = Err (ValueError msg).
Proof.
  split.
  - apply (C3_missing_fields_raise_ValueError (JDict [("error", JStr "throttled")]));
      reflexivity.
  - apply (C3_missing_fields_raise_ValueError Sample.staff_without_items eq_refl)
      with (staff := JDict [("staffId", JStr "s2")]).
    + simpl. right. left. reflexivity.
    + reflexivity.
Defined.

(** On a response of the upstream shape, where a [startDateTime] or
    [endDateTime] that is present is an object, an item whose status
    is not excluded and whose start or end timestamp is missing makes
    the parser raise [ValueError]: [_parse_data] ends there, without a
    slot list, without a log entry and without any notification. *)
Theorem missing_timestamp_fails_the_cycle
  (data item : json)
  (Hshape : response_shape data = true)
  (Hitem : In item (all_items data))
  (Hstatus : excluded item = false)
  (Hmissing : has_timestamps item = false) :
  exists msg,
    available_slots data false = Err (ValueError msg)
    /\ forall cfg w, _parse_data cfg w data false = ([], Err (ValueError msg)).
Proof.
  destruct (available_slots_shape data Hshape) as [(slots & Hok) | (msg & Herr & _)].
  - apply available_slots_sound in Hok as (_ & _ & Hv).
    pose proof (staff_valid_items _ _ Hv Hitem) as Hts.
    rewrite Hstatus, Hmissing in Hts. discriminate.
  - exists msg. split; [exact Herr|].
    intros cfg w. unfold _parse_data. rewrite Herr. reflexivity.
Qed.

Lemma missing_timestamp_fails_the_cycle_witness :
  exists msg,
    available_slots Sample.free_item_without_end false = Err (ValueError msg)
    /\ forall cfg w,
         _parse_data cfg w Sample.free_item_without_end false = ([], Err (ValueError msg)).
Proof.
  apply (missing_timestamp_fails_the_cycle
           Sample.free_item_without_end Sample.item_without_end).
  - reflexivity.
  - simpl. right. left. reflexivity.
  - reflexivity.
  - reflexivity.
Defined.

(** C4, at failing inputs.  A response whose first item is not
    excluded and has a [startDateTime] that is present but null, or,
    its [startDateTime] being an object or absent, an [endDateTime]
    that is present but null, is a response with an item that misses a
    timestamp; on it line 206, or line 207, raises [AttributeError],
    which is not a [ValueError], and [_parse_data] ends with that
    exception. *)
Theorem C4_null_timestamp_raises_AttributeError
  (data staff : json) (staffs items : list json) (kvs : list (string * json))
  (Hdata : get data "staffAvailabilityResponse" = Ok (JList (staff :: staffs)))
  (Hstaff : get staff "availabilityItems" = Ok (JList (JDict kvs :: items)))
  (Hstatus : excluded (JDict kvs) = false)
  (Hnull : assoc "startDateTime" kvs = Some JNull
           \/ (object_or_absent "startDateTime" kvs = true
               /\ assoc "endDateTime" kvs = Some JNull)) :
  In (JDict kvs) (all_items data)
  /\ has_timestamps (JDict kvs) = false
  /\ available_slots data false
     = Err (AttributeError "NoneType object has no attribute 'get'")
  /\ is_ValueError (AttributeError "NoneType object has no attribute 'get'") = false
  /\ forall cfg w,
       _parse_data cfg w data false
       = ([], Err (AttributeError "NoneType object has no attribute 'get'")).
Proof.
  assert (Hitem : parse_item (JDict kvs)
                  = Err (AttributeError "NoneType object has no attribute 'get'")).
  { unfold parse_item.
    assert (Hst : get (JDict kvs) "status" = Ok (field (JDict kvs) "status")).
    { unfold get, get_default, field. destruct (assoc "status" kvs); reflexivity. }
    rewrite Hst. cbn [rbind]. fold (excluded (JDict kvs)). rewrite Hstatus.
    unfold get, get_default.
    destruct Hnull as [Hstart | (Hstart & Hend)]; [now rewrite Hstart|].
    unfold object_or_absent in Hstart. rewrite Hend.
    destruct (assoc "startDateTime" kvs) as [[]|]; try discriminate Hstart;
      cbn [rbind]; [destruct (assoc "dateTime" kvs0)|]; reflexivity. }
  assert (Hparse : available_slots data false
                   = Err (AttributeError "NoneType object has no attribute 'get'")).
  { unfold available_slots. rewrite Hdata. cbn [rbind truthy negb iter parse_staffs].
    unfold parse_staff. rewrite Hstaff. cbn [rbind iter parse_items].
    now rewrite Hitem. }
  split; [|split; [|split; [exact Hparse | split; [reflexivity|]]]].
  - unfold all_items, staff_entries.
    rewrite <- (get_field _ _ _ Hdata). cbn [elements flat_map].
    apply in_or_app. left. unfold items_of.
    rewrite <- (get_field _ _ _ Hstaff). cbn [elements]. now left.
  - unfold has_timestamps, start_of, end_of, field.
    destruct Hnull as [Hstart | (_ & Hend)]; [now rewrite Hstart|].
    rewrite Hend. apply andb_false_r.
  - intros cfg w. unfold _parse_data. now rewrite Hparse.
Qed.

Lemma C4_null_timestamp_raises_AttributeError_witness :
  In Sample.item_with_null_start (all_items Sample.free_item_with_null_start)
  /\ has_timestamps Sample.item_with_null_start = false
  /\ available_slots Sample.free_item_with_null_start false
     = Err (AttributeError "NoneType object has no attribute 'get'")
  /\ is_ValueError (AttributeError "NoneType object has no attribute 'get'") = false
  /\ forall cfg w,
       _parse_data cfg w Sample.free_item_with_null_start false
       = ([], Err (AttributeError "NoneType object has no attribute 'get'")).
Proof.
  apply (C4_null_timestamp_raises_AttributeError Sample.free_item_with_null_start
           (Sample.staff_of [Sample.item_with_null_start]) [] []
           [("status", JStr Sample.AVAILABLE);
            ("startDateTime", JNull);
            ("endDateTime", JDict [("dateTime", JStr "2024-10-22T18:30:00+00:00")])]);
    try reflexivity.
  left. reflexivity.
Defined.

(** C10.  A [staffAvailabilityResponse] that is present but falsy (the
    empty list in particular) makes the parser raise the very
    [ValueError] of an absent field: a response that lists no staff
    entry never yields an empty slot list. *)
Theorem C10_empty_staff_list_raises
  (kvs : list (string * json)) (v : json)
  (Hpresent : assoc "staffAvailabilityResponse" kvs = Some v)
  (Hfalsy : truthy v = false) :
  available_slots (JDict kvs) false = Err missing_staff_response
  /\ available_slots (JDict kvs) false = available_slots (JDict []) false
  /\ available_slots (JDict kvs) false <> Ok [].
Proof.
  assert (H : available_slots (JDict kvs) false = Err missing_staff_response).
  { unfold available_slots, get, get_default. rewrite Hpresent.
    cbn [rbind]. now rewrite Hfalsy. }
  rewrite H. split; [reflexivity|]. split; [reflexivity | discriminate].
Qed.

Lemma C10_empty_staff_list_raises_witness :
  available_slots (Sample.response_of []) false = Err missing_staff_response
  /\ available_slots (Sample.response_of []) false = available_slots (JDict []) false
  /\ available_slots (Sample.response_of []) false <> Ok [].
Proof.
  apply (C10_empty_staff_list_raises [("staffAvailabilityResponse", JList [])] (JList []));
    reflexivity.
Defined.

(** ** The notification fan-out *)

Section Fanout.

Variable cfg : settings.
Variable w : world.
Variable message : string.

Local Abbreviation send := (messages_create w (TWILIO_PHONE_NUMBER cfg) message).
Local Abbreviation call := (MessagesCreate (TWILIO_PHONE_NUMBER cfg) message).

(** The loop calls the gateway for the attempted targets, in order. *)
Lemma send_each_calls (recipients : list string) :
  gateway_calls (fst (send_each cfg w message recipients))
  = map call (attempted send (targets recipients)).
Proof.
  unfold targets.
  induction recipients as [|r rest IH]; [reflexivity|].
  cbn [send_each map filter].
  destruct (strip r =? "")%string; cbn [negb]; [exact IH|].
  cbn [attempted].
  destruct (send (strip r)) as [sid|e]; [|reflexivity].
  cbn. destruct (send_each cfg w message rest) as [t res] eqn:E.
  cbn in IH |- *. now rewrite IH.
Qed.

(** The loop ends with the exception of the first failing send. *)
Lemma send_each_result (recipients : list string) :
  snd (send_each cfg w message recipients)
  = match first_failure send (targets recipients) with
    | None => Ok tt
    | Some e => Err e
    end.
Proof.
  unfold targets.
  induction recipients as [|r rest IH]; [reflexivity|].
  cbn [send_each map filter].
  destruct (strip r =? "")%string; cbn [negb]; [exact IH|].
  cbn [first_failure].
  destruct (send (strip r)) as [sid|e]; [|reflexivity].
  cbn. destruct (send_each cfg w message rest) as [t res] eqn:E.
  exact IH.
Qed.

(** [send_notification] never raises: whatever happens to a send,
    control returns to the caller. *)
Lemma send_notification_returns :
  snd (send_notification cfg w message) = Ok tt.
Proof.
  unfold send_notification.
  destruct (RECIPIENT_PHONE_NUMBERS cfg) as [|r rest]; [reflexivity|].
  destruct (Client w (ACCOUNT_SID cfg) (AUTH_TOKEN cfg)) as [[]|e]; [|reflexivity].
  cbn [lift bind].
  destruct (send_each cfg w message (r :: rest)) as [t [[]|e]]; reflexivity.
Qed.

Lemma gateway_calls_app (t1 t2 : trace) :
  gateway_calls (t1 ++ t2)%list = (gateway_calls t1 ++ gateway_calls t2)%list.
Proof. apply filter_app. Qed.

Lemma send_notification_calls :
  Client w (ACCOUNT_SID cfg) (AUTH_TOKEN cfg) = Ok tt ->
  gateway_calls (fst (send_notification cfg w message))
  = map call (attempted send (targets (RECIPIENT_PHONE_NUMBERS cfg))).
Proof.
  intros HC. unfold send_notification.
  destruct (RECIPIENT_PHONE_NUMBERS cfg) as [|r rest] eqn:ER; [reflexivity|].
  rewrite HC. cbn [lift bind].
  pose proof (send_each_calls (r :: rest)) as Hcalls.
  destruct (send_each cfg w message (r :: rest)) as [t [[]|e]];
    cbn [fst] in Hcalls; cbn [try_except fst app].
  - exact Hcalls.
  - cbn. rewrite gateway_calls_app, Hcalls. cbn. now rewrite app_nil_r.
Qed.

Lemma attempted_all (tos : list string) :
  (forall to, In to tos -> exists sid, send to = Ok sid) ->
  attempted send tos = tos.
Proof.
  induction tos as [|to rest IH]; [reflexivity|]. intros H. cbn.
  destruct (H to (or_introl eq_refl)) as (sid & ->).
  rewrite IH; [reflexivity|]. intros to' Hin. apply H. now right.
Qed.

Lemma attempted_until_failure (before after : list string) (to : string) (e : exn) :
  (forall b, In b before -> exists sid, send b = Ok sid) ->
  send to = Err e ->
  attempted send (before ++ to :: after)%list = (before ++ [to])%list.
Proof.
  intros Hb Hto.
  induction before as [|b rest IH]; cbn.
  - now rewrite Hto.
  - destruct (Hb b (or_introl eq_refl)) as (sid & ->).
    rewrite IH; [reflexivity|]. intros b' Hin. apply Hb. now right.
Qed.

Lemma first_failure_until (before after : list string) (to : string) (e : exn) :
  (forall b, In b before -> exists sid, send b = Ok sid) ->
  send to = Err e ->
  first_failure send (before ++ to :: after)%list = Some e.
Proof.
  intros Hb Hto.
  induction before as [|b rest IH]; cbn.
  - now rewrite Hto.
  - destruct (Hb b (or_introl eq_refl)) as (sid & ->).
    apply IH. intros b' Hin. apply Hb. now right.
Qed.

(** A failing send is reported in the log by the handler. *)
Lemma send_notification_logs_failure (e : exn) :
  Client w (ACCOUNT_SID cfg) (AUTH_TOKEN cfg) = Ok tt ->
  first_failure send (targets (RECIPIENT_PHONE_NUMBERS cfg)) = Some e ->
  In (Log ERROR (SmsFailed e)) (fst (send_notification cfg w message)).
Proof.
  intros HC Hf. unfold send_notification.
  destruct (RECIPIENT_PHONE_NUMBERS cfg) as [|r rest] eqn:ER; [discriminate Hf|].
  rewrite HC. cbn [lift bind].
  pose proof (send_each_result (r :: rest)) as Hres. rewrite Hf in Hres.
  destruct (send_each cfg w message (r :: rest)) as [t res]. cbn [snd] in Hres.
  subst res. cbn. apply in_or_app. right. now left.
Qed.

End Fanout.

(** C1, as amended.  A failing send is caught and logged inside
    [send_notification], which returns normally, so the cycle goes on;
    but the failure ends the fan-out: the gateway is invoked for the
    non-blank recipients in order up to and including the first one
    whose send fails, and for none of the later ones. *)
Theorem C1_failure_ends_fanout
  (cfg : settings) (w : world) (message : string)
  (before after : list string) (to : string) (e : exn)
  (Hclient : Client w (ACCOUNT_SID cfg) (AUTH_TOKEN cfg) = Ok tt)
  (Hlist : targets (RECIPIENT_PHONE_NUMBERS cfg) = (before ++ to :: after)%list)
  (Hbefore : forall b, In b before ->
     exists sid, messages_create w (TWILIO_PHONE_NUMBER cfg) message b = Ok sid)
  (Hfails : messages_create w (TWILIO_PHONE_NUMBER cfg) message to = Err e) :
  snd (send_notification cfg w message) = Ok tt
  /\ In (Log ERROR (SmsFailed e)) (fst (send_notification cfg w message))
  /\ gateway_calls (fst (send_notification cfg w message))
     = map (MessagesCreate (TWILIO_PHONE_NUMBER cfg) message) (before ++ [to])%list.
Proof.
  split; [apply send_notification_returns|]. split.
  - apply send_notification_logs_failure; [exact Hclient|].
    rewrite Hlist. now apply first_failure_until.
  - rewrite send_notification_calls by exact Hclient.
    rewrite Hlist. f_equal. now apply attempted_until_failure with (e := e).
Qed.

Lemma C1_failure_ends_fanout_witness :
  snd (send_notification Sample.three_recipients Sample.second_send_fails "hello") = Ok tt
  /\ In (Log ERROR (SmsFailed (TwilioException "unreachable")))
        (fst (send_notification Sample.three_recipients Sample.second_send_fails "hello"))
  /\ gateway_calls
       (fst (send_notification Sample.three_recipients Sample.second_send_fails "hello"))
     = [MessagesCreate "+15550000" "hello" "+15550001";
        MessagesCreate "+15550000" "hello" "+15550002"].
Proof.
  apply (C1_failure_ends_fanout Sample.three_recipients Sample.second_send_fails "hello"
           ["+15550001"] ["+15550003"] "+15550002" (TwilioException "unreachable")).
  - reflexivity.
  - reflexivity.
  - intros b [<- | []]. exists "SM1". reflexivity.
  - reflexivity.
Defined.

(** C1 as stated fails: with two recipients, when the send to the
    first one fails the gateway is never invoked for the second. *)
Lemma C1_later_recipient_not_reached :
  RECIPIENT_PHONE_NUMBERS Sample.two_recipients = ["+15550001"; "+15550002"]
  /\ messages_create Sample.first_send_fails "+15550000" "hello" "+15550001"
     = Err (TwilioException "unreachable")
  /\ gateway_calls (fst (send_notification Sample.two_recipients Sample.first_send_fails "hello"))
     = [MessagesCreate "+15550000" "hello" "+15550001"]
  /\ ~ In (MessagesCreate "+15550000" "hello" "+15550002")
         (fst (send_notification Sample.two_recipients Sample.first_send_fails "hello")).
Proof.
  split; [reflexivity|]. split; [reflexivity|]. split; [reflexivity|].
  vm_compute. intros [H|[H|[]]]; discriminate H.
Qed.


(** ** The poll loop *)

Lemma time_sleep_ok (w : world) (seconds : Z) :
  0 <= seconds <= MAX_SLEEP ->
  sleep_granted w seconds = true ->
  time_sleep w seconds = ([TimeSleep seconds], Ok tt).
Proof.
  intros [H0 H1] Hg. unfold time_sleep.
  destruct (seconds <? - MAX_SLEEP) eqn:E1;
    [apply Z.ltb_lt in E1; unfold MAX_SLEEP in *; lia|].
  destruct (MAX_SLEEP <? seconds) eqn:E2; [apply Z.ltb_lt in E2; lia|].
  destruct (seconds <? 0) eqn:E3; [apply Z.ltb_lt in E3; lia|].
  cbn [orb]. now rewrite Hg.
Qed.

Lemma check_availability_cons (cfg : settings) (polling_interval : Z) (test : bool)
  (w : world) (rest : list world) (t : trace) :
  iteration cfg polling_interval test w = (t, Ok tt) ->
  check_availability cfg polling_interval test (w :: rest)
  = ((t ++ fst (check_availability cfg polling_interval test rest))%list,
     snd (check_availability cfg polling_interval test rest)).
Proof.
  intros H. cbn [check_availability]. rewrite H.
  now destruct (check_availability cfg polling_interval test rest).
Qed.

Lemma iteration_get_status
  (cfg : settings) (polling_interval : Z) (test : bool) (w : world) (r : response) :
  0 <= polling_interval <= MAX_SLEEP ->
  sleep_granted w polling_interval = true ->
  session_get w = Ok r ->
  status_code r <> 200 ->
  iteration cfg polling_interval test w
  = ([HttpGet (GET_URL cfg);
      Log ERROR (GetFailed (status_code r) (text r));
      TimeSleep polling_interval], Ok tt).
Proof.
  intros Hinterval Hgranted Hget Hstatus.
  unfold iteration, try_block. rewrite Hget.
  apply Z.eqb_neq in Hstatus. cbn [lift emit bind]. rewrite Hstatus.
  cbn [negb log emit bind]. rewrite (time_sleep_ok _ _ Hinterval Hgranted). reflexivity.
Qed.

(** C7.  When the session GET returns a status other than 200, the
    iteration consists of the GET, the error log entry and the sleep of
    the polling interval: no POST is issued and nothing is parsed, and
    the loop goes on with its next iteration.  The polling interval is
    a length [time.sleep] accepts: not negative, not beyond
    [MAX_SLEEP], and granted by the operating system. *)
Theorem C7_get_failure_skips_post_and_parse
  (cfg : settings) (polling_interval : Z) (test : bool)
  (w : world) (rest : list world) (r : response)
  (Hinterval : 0 <= polling_interval <= MAX_SLEEP)
  (Hgranted : sleep_granted w polling_interval = true)
  (Hget : session_get w = Ok r)
  (Hstatus : status_code r <> 200) :
  iteration cfg polling_interval test w
  = ([HttpGet (GET_URL cfg);
      Log ERROR (GetFailed (status_code r) (text r));
      TimeSleep polling_interval], Ok tt)
  /\ filter is_post (fst (iteration cfg polling_interval test w)) = []
  /\ check_availability cfg polling_interval test (w :: rest)
     = (([HttpGet (GET_URL cfg);
          Log ERROR (GetFailed (status_code r) (text r));
          TimeSleep polling_interval]
         ++ fst (check_availability cfg polling_interval test rest))%list,
        snd (check_availability cfg polling_interval test rest)).
Proof.
  pose proof (iteration_get_status cfg polling_interval test w r
                Hinterval Hgranted Hget Hstatus) as Hit.
  split; [exact Hit|]. split; [now rewrite Hit|].
  now apply check_availability_cons.
Qed.

Lemma C7_get_failure_skips_post_and_parse_witness :
  iteration Sample.one_recipient 60 false Sample.get_404
  = ([HttpGet "https://outlook.office365.com/book/clinic@example.com/s/tok";
      Log ERROR (GetFailed 404 "");
      TimeSleep 60], Ok tt)
  /\ filter is_post (fst (iteration Sample.one_recipient 60 false Sample.get_404)) = []
  /\ check_availability Sample.one_recipient 60 false [Sample.get_404; Sample.quiet]
     = (([HttpGet "https://outlook.office365.com/book/clinic@example.com/s/tok";
          Log ERROR (GetFailed 404 "");
          TimeSleep 60]
         ++ fst (check_availability Sample.one_recipient 60 false [Sample.quiet]))%list,
        snd (check_availability Sample.one_recipient 60 false [Sample.quiet])).
Proof.
  apply (C7_get_failure_skips_post_and_parse Sample.one_recipient 60 false
           Sample.get_404 [Sample.quiet]
           {| status_code := 404; text := "";
              json_body := Err (JSONDecodeError "Expecting value") |}).
  - unfold MAX_SLEEP. lia.
  - reflexivity.
  - reflexivity.
  - simpl. lia.
Defined.

(** Once both requests returned 200, the iteration is the parse stage
    settled by the two handlers. *)
Lemma iteration_after_requests
  (cfg : settings) (polling_interval : Z) (test : bool) (w : world) (r1 r2 : response) :
  0 <= polling_interval <= MAX_SLEEP ->
  sleep_granted w polling_interval = true ->
  session_get w = Ok r1 -> status_code r1 = 200 ->
  session_post w = Ok r2 -> status_code r2 = 200 ->
  iteration cfg polling_interval test w
  = ((requests_ok cfg w ++ fst (settled polling_interval (parse_stage cfg w test r2)))%list,
     snd (settled polling_interval (parse_stage cfg w test r2))).
Proof.
  intros Hpi Hgranted Hget H1 Hpost H2.
  unfold iteration, try_block. rewrite Hget.
  cbn [lift emit log bind]. rewrite H1.
  cbn [lift emit log bind negb Z.eqb Pos.eqb]. rewrite Hpost.
  cbn [lift emit log bind]. rewrite H2.
  cbn [lift emit log bind negb Z.eqb Pos.eqb app].
  unfold settled, closing, requests_ok.
  destruct (parse_stage cfg w test r2) as [t [[]|e]]; cbn.
  - rewrite (time_sleep_ok _ _ Hpi Hgranted). cbn. now rewrite <- app_assoc.
  - destruct (is_ValueError e); cbn.
    + rewrite (time_sleep_ok _ _ Hpi Hgranted). cbn. now rewrite <- !app_assoc.
    + destruct (is_RequestException e); cbn; [|reflexivity].
      rewrite (time_sleep_ok _ _ Hpi Hgranted). cbn. now rewrite <- !app_assoc.
Qed.

(** Every [ValueError] raised in the parse stage is caught: the
    iteration logs it, sleeps the polling interval and ends normally. *)
Lemma iteration_catches_ValueError
  (cfg : settings) (polling_interval : Z) (test : bool) (w : world) (r1 r2 : response)
  (e : exn) :
  0 <= polling_interval <= MAX_SLEEP ->
  sleep_granted w polling_interval = true ->
  session_get w = Ok r1 -> status_code r1 = 200 ->
  session_post w = Ok r2 -> status_code r2 = 200 ->
  snd (parse_stage cfg w test r2) = Err e ->
  is_ValueError e = true ->
  iteration cfg polling_interval test w
  = ((requests_ok cfg w ++ fst (parse_stage cfg w test r2)
        ++ [Log ERROR (JsonParseFailed e);
            Log INFO (Waiting polling_interval);
            TimeSleep polling_interval])%list, Ok tt).
Proof.
  intros Hpi Hgranted Hget H1 Hpost H2 Hst He.
  rewrite (iteration_after_requests _ _ _ _ _ _ Hpi Hgranted Hget H1 Hpost H2).
  destruct (parse_stage cfg w test r2) as [t res]. cbn [snd] in Hst. subst res.
  cbn. rewrite He. reflexivity.
Qed.

(** A transport failure of either request is caught by the outer
    handler. *)
Lemma iteration_catches_get_failure
  (cfg : settings) (polling_interval : Z) (test : bool) (w : world) (e : exn) :
  0 <= polling_interval <= MAX_SLEEP ->
  sleep_granted w polling_interval = true ->
  session_get w = Err e ->
  is_RequestException e = true ->
  iteration cfg polling_interval test w
  = ([HttpGet (GET_URL cfg);
      Log ERROR (NetworkError e);
      Log INFO (Waiting polling_interval);
      TimeSleep polling_interval], Ok tt).
Proof.
  intros Hpi Hgranted Hget He. unfold iteration, try_block. rewrite Hget.
  cbn. rewrite He. cbn. rewrite (time_sleep_ok _ _ Hpi Hgranted). reflexivity.
Qed.

Lemma iteration_catches_post_failure
  (cfg : settings) (polling_interval : Z) (test : bool) (w : world) (r1 : response)
  (e : exn) :
  0 <= polling_interval <= MAX_SLEEP ->
  sleep_granted w polling_interval = true ->
  session_get w = Ok r1 -> status_code r1 = 200 ->
  session_post w = Err e ->
  is_RequestException e = true ->
  iteration cfg polling_interval test w
  = ([HttpGet (GET_URL cfg);
      Log INFO GetSuccessful;
      HttpPost (POST_URL cfg) (_create_post_payload cfg (now_utc w));
      Log ERROR (NetworkError e);
      Log INFO (Waiting polling_interval);
      TimeSleep polling_interval], Ok tt).
Proof.
  intros Hpi Hgranted Hget H1 Hpost He. unfold iteration, try_block.
  rewrite Hget. cbn [lift emit log bind]. rewrite H1.
  cbn [lift emit log bind negb Z.eqb Pos.eqb]. rewrite Hpost.
  cbn. rewrite He. cbn. rewrite (time_sleep_ok _ _ Hpi Hgranted). reflexivity.
Qed.

Lemma iteration_post_status
  (cfg : settings) (polling_interval : Z) (test : bool) (w : world) (r1 r2 : response) :
  0 <= polling_interval <= MAX_SLEEP ->
  sleep_granted w polling_interval = true ->
  session_get w = Ok r1 -> status_code r1 = 200 ->
  session_post w = Ok r2 -> status_code r2 <> 200 ->
  iteration cfg polling_interval test w
  = ([HttpGet (GET_URL cfg);
      Log INFO GetSuccessful;
      HttpPost (POST_URL cfg) (_create_post_payload cfg (now_utc w));
      Log ERROR (PostFailed (status_code r2) (text r2));
      TimeSleep polling_interval], Ok tt).
Proof.
  intros Hpi Hgranted Hget H1 Hpost H2. unfold iteration, try_block.
  rewrite Hget. cbn [lift emit log bind]. rewrite H1.
  cbn [lift emit log bind negb Z.eqb Pos.eqb]. rewrite Hpost.
  apply Z.eqb_neq in H2.
  cbn [lift emit log bind negb Z.eqb Pos.eqb app]. rewrite H2.
  cbn [lift emit log bind negb app]. rewrite (time_sleep_ok _ _ Hpi Hgranted). reflexivity.
Qed.

(** ** The payload builder *)

(** The date format of the payload prints the calendar date of its
    argument and a literal midnight. *)
Lemma strftime_midnight (dt : datetime) :
  strftime dt "%Y-%m-%dT00:00:00"
  = pad4 (year dt) ++ "-" ++ pad2 (month dt) ++ "-" ++ pad2 (day dt) ++ "T00:00:00".
Proof.
  unfold strftime. cbn [list_ascii_of_string strftime_chars directive].
  unfold pad4, pad2. cbn [append]. reflexivity.
Qed.

(** C5.  For every reading [now] of the clock, the payload builder
    takes [start = now - 1 day] and [end = start + 12 days], and the
    request body carries the dates of the two, each under the label
    "Pacific Standard Time"; for now = 2024-10-10T00:00:00Z these are
    2024-10-09T00:00:00 and 2024-10-21T00:00:00. *)
Theorem C5_window_is_one_day_back_and_twelve_days_long
  (cfg : settings) (now : datetime) :
  start_date now = sub_days now 1
  /\ end_date now = add_days (start_date now) 12
  /\ ordinal (start_date now) = ordinal now - 1
  /\ ordinal (end_date now) = ordinal (start_date now) + 12
  /\ wall_clock now - wall_clock (start_date now) = 86400
  /\ wall_clock (end_date now) - wall_clock (start_date now) = 12 * 86400
  /\ utcoffset (start_date now) = utcoffset now
  /\ utcoffset (end_date now) = utcoffset now
  /\ _create_post_payload cfg now
     = JDict
         [("serviceId", SERVICE_ID cfg);
          ("staffIds", STAFF_IDS cfg);
          ("startDateTime",
            JDict [("dateTime",
                     JStr (pad4 (year (start_date now)) ++ "-"
                           ++ pad2 (month (start_date now)) ++ "-"
                           ++ pad2 (day (start_date now)) ++ "T00:00:00"));
                   ("timeZone", JStr "Pacific Standard Time")]);
          ("endDateTime",
            JDict [("dateTime",
                     JStr (pad4 (year (end_date now)) ++ "-"
                           ++ pad2 (month (end_date now)) ++ "-"
                           ++ pad2 (day (end_date now)) ++ "T00:00:00"));
                   ("timeZone", JStr "Pacific Standard Time")])]
  /\ _create_post_payload cfg (make 2024 10 10 0 0 0 (Some 0))
     = JDict
         [("serviceId", SERVICE_ID cfg);
          ("staffIds", STAFF_IDS cfg);
          ("startDateTime",
            JDict [("dateTime", JStr "2024-10-09T00:00:00");
                   ("timeZone", JStr "Pacific Standard Time")]);
          ("endDateTime",
            JDict [("dateTime", JStr "2024-10-21T00:00:00");
                   ("timeZone", JStr "Pacific Standard Time")])].
Proof.
  assert (Hstart : wall_clock now - wall_clock (start_date now) = 86400).
  { unfold wall_clock, start_date, sub_days, add_days.
    cbn [ordinal second_of_day]. lia. }
  assert (Hend : wall_clock (end_date now) - wall_clock (start_date now) = 12 * 86400).
  { unfold wall_clock, end_date, start_date, sub_days, add_days.
    cbn [ordinal second_of_day]. lia. }
  repeat split; try reflexivity; assumption.
Qed.

Lemma holds_on_spec (p : Z -> bool) (first : Z) (count : positive) :
  holds_on p first count = true ->
  forall n, first <= n < first + Z.pos count -> p n = true.
Proof.
  unfold holds_on.
  set (step := fun st : Z * bool => (fst st + 1, snd st && p (fst st))).
  assert (H : forall c,
             fst (Pos.iter step (first, true) c) = first + Z.pos c
             /\ (snd (Pos.iter step (first, true) c) = true ->
                 forall n, first <= n < first + Z.pos c -> p n = true)).
  { induction c as [|c [IHf IHs]] using Pos.peano_ind.
    - cbn. split; [reflexivity|]. intros Hp n Hn.
      replace n with first by lia. exact Hp.
    - rewrite Pos.iter_succ. unfold step at 1. cbn [fst snd].
      split; [lia|]. intros Hp n Hn. apply andb_prop in Hp as (Hs & Hlast).
      destruct (Z.eq_dec n (first + Z.pos c)) as [->|Hne].
      + now rewrite IHf in Hlast.
      + apply IHs; [exact Hs | lia]. }
  intros Hp. now apply (proj2 (H count)).
Qed.

(** From 2020-01-01 to 2030-12-31 the calendar fields read off an
    ordinal are those of the date with that ordinal, and the midnight
    of the day, printed in the format of the payload, reads back as
    itself. *)
Lemma calendar_2020_2030 :
  ymd2ord 2020 1 1 = 737425
  /\ ymd2ord 2030 12 31 = 737425 + 4017
  /\ holds_on consistent_at 737425 4018 = true
  /\ holds_on midnight_round_trips 737425 4018 = true.
Proof. vm_compute. auto. Qed.

(** The dates the request body carries denote the window: for a clock
    reading between 2020-01-02 and 2030-12-20, the start string reads
    as the midnight of the day before [now] and the end string as the
    midnight twelve days after that one. *)
Lemma payload_dates_denote_the_window (cfg : settings) (now : datetime) :
  737425 < ordinal now <= 737425 + 4017 - 11 ->
  fromisoformat (field (field (_create_post_payload cfg now) "startDateTime") "dateTime")
  = Ok (mkDatetime (ordinal now - 1) 0 0 None)
  /\ fromisoformat (field (field (_create_post_payload cfg now) "endDateTime") "dateTime")
     = Ok (mkDatetime (ordinal now - 1 + 12) 0 0 None).
Proof.
  intros Hrange.
  destruct calendar_2020_2030 as (_ & _ & _ & Hsweep).
  assert (Hday : forall dt,
             737425 <= ordinal dt < 737425 + 4018 ->
             fromisoformat (JStr (strftime dt "%Y-%m-%dT00:00:00"))
             = Ok (mkDatetime (ordinal dt) 0 0 None)).
  { intros dt Hdt.
    pose proof (holds_on_spec _ _ _ Hsweep (ordinal dt) Hdt) as Hrt.
    unfold midnight_round_trips in Hrt.
    change (strftime dt "%Y-%m-%dT00:00:00")
      with (strftime (mkDatetime (ordinal dt) 0 0 None) "%Y-%m-%dT00:00:00").
    destruct (fromisoformat _) as [[o sod us [off|]]|e]; try discriminate Hrt.
    apply andb_prop in Hrt as (Hrt & Hus). apply andb_prop in Hrt as (Ho & Hs).
    apply Z.eqb_eq in Ho, Hs, Hus. now subst. }
  split.
  - apply (Hday (start_date now)). unfold start_date, sub_days, add_days.
    cbn [ordinal]. lia.
  - apply (Hday (end_date now)). unfold end_date, start_date, sub_days, add_days.
    cbn [ordinal]. lia.
Qed.

(** ** Parse and notify *)

Lemma _parse_data_no_slots (cfg : settings) (w : world) (data : json) (test : bool) :
  available_slots data test = Ok [] ->
  _parse_data cfg w data test = ([Log INFO NoSlotsFound], Ok tt).
Proof. intros H. unfold _parse_data. now rewrite H. Qed.

Lemma _parse_data_slots (cfg : settings) (w : world) (data : json) (test : bool)
  (s : slot) (rest : list slot) (formatted : string) :
  available_slots data test = Ok (s :: rest) ->
  _format_available_slots (TIMEZONE cfg) (local_zone w) (s :: rest) = Ok formatted ->
  _parse_data cfg w data test
  = (Log INFO SlotsFound
       :: fst (send_notification cfg w (notification_text cfg formatted)),
     Ok tt).
Proof.
  intros Hs Hf. unfold _parse_data. rewrite Hs. cbn [lift bind app]. rewrite Hf.
  cbn [lift bind log emit app].
  pose proof (send_notification_returns cfg w (notification_text cfg formatted)) as Hr.
  destruct (send_notification cfg w (notification_text cfg formatted)) as [t res].
  cbn [snd] in Hr. subst res. reflexivity.
Qed.

Lemma _parse_data_unformatted (cfg : settings) (w : world) (data : json) (test : bool)
  (s : slot) (rest : list slot) (e : exn) :
  available_slots data test = Ok (s :: rest) ->
  _format_available_slots (TIMEZONE cfg) (local_zone w) (s :: rest) = Err e ->
  _parse_data cfg w data test = ([], Err e).
Proof.
  intros Hs Hf. unfold _parse_data. rewrite Hs. cbn [lift bind app]. now rewrite Hf.
Qed.

Lemma _parse_data_unparsed (cfg : settings) (w : world) (data : json) (test : bool)
  (e : exn) :
  available_slots data test = Err e ->
  _parse_data cfg w data test = ([], Err e).
Proof. intros Hs. unfold _parse_data. now rewrite Hs. Qed.

(** The gateway is invoked only for a non-empty slot list that the
    formatter rendered. *)
Lemma _parse_data_calls_only_for_slots
  (cfg : settings) (w : world) (data : json) (test : bool) :
  gateway_calls (fst (_parse_data cfg w data test)) <> [] ->
  exists s rest formatted,
    available_slots data test = Ok (s :: rest)
    /\ _format_available_slots (TIMEZONE cfg) (local_zone w) (s :: rest) = Ok formatted.
Proof.
  intros Hcalls.
  destruct (available_slots data test) as [[|s rest]|e] eqn:Hs.
  - rewrite (_parse_data_no_slots _ _ _ _ Hs) in Hcalls. now contradiction Hcalls.
  - destruct (_format_available_slots (TIMEZONE cfg) (local_zone w) (s :: rest))
      as [formatted|e] eqn:Hf; [eauto|].
    rewrite (_parse_data_unformatted _ _ _ _ _ _ _ Hs Hf) in Hcalls.
    now contradiction Hcalls.
  - rewrite (_parse_data_unparsed _ _ _ _ _ Hs) in Hcalls. now contradiction Hcalls.
Qed.

Lemma all_excluded_no_slots (data : json) :
  forallb excluded (all_items data) = true -> expected_slots data = [].
Proof.
  unfold expected_slots. intros H.
  induction (all_items data) as [|i rest IH]; [reflexivity|].
  cbn [forallb] in H. apply andb_prop in H as (Hi & Hrest).
  cbn [filter]. unfold bookable at 1. rewrite Hi. cbn [negb]. now apply IH.
Qed.

(** C6, as amended.  The gateway is invoked in a cycle only if the
    parsed slot list is non-empty.  When every item of a valid
    response is BUSY or OUT_OF_OFFICE the slot list is empty and
    nothing is sent.  When the slot list is non-empty and the formatter
    renders it, the message with the formatted slots and the
    booking-page link is handed to the fan-out, which invokes the
    gateway for the non-blank recipients in order up to the first
    failing send: for all of them when no send fails. *)
Theorem C6_notification_only_for_slots
  (cfg : settings) (w : world) (data : json) (test : bool) :
  (gateway_calls (fst (_parse_data cfg w data test)) <> [] ->
     exists s rest, available_slots data test = Ok (s :: rest))
  /\ (response_valid data = true ->
      forallb excluded (all_items data) = true ->
      available_slots data false = Ok []
      /\ _parse_data cfg w data false = ([Log INFO NoSlotsFound], Ok tt))
  /\ (forall s rest formatted,
        available_slots data test = Ok (s :: rest) ->
        _format_available_slots (TIMEZONE cfg) (local_zone w) (s :: rest) = Ok formatted ->
        Client w (ACCOUNT_SID cfg) (AUTH_TOKEN cfg) = Ok tt ->
        let message :=
          "Booking Slots Available!" ++ nl ++ nl ++ formatted ++ nl ++ nl
          ++ "Go to: " ++ GET_URL cfg in
        let send := messages_create w (TWILIO_PHONE_NUMBER cfg) message in
        let call := MessagesCreate (TWILIO_PHONE_NUMBER cfg) message in
        gateway_calls (fst (_parse_data cfg w data test))
        = map call (attempted send (targets (RECIPIENT_PHONE_NUMBERS cfg)))
        /\ ((forall to, In to (targets (RECIPIENT_PHONE_NUMBERS cfg)) ->
                        exists sid, send to = Ok sid) ->
            gateway_calls (fst (_parse_data cfg w data test))
            = map call (targets (RECIPIENT_PHONE_NUMBERS cfg)))).
Proof.
  split; [|split].
  - intros H. apply _parse_data_calls_only_for_slots in H as (s & rest & _ & Hs & _).
    eauto.
  - intros Hvalid Hall.
    pose proof (available_slots_complete data Hvalid) as Hs.
    rewrite (all_excluded_no_slots data Hall) in Hs.
    split; [exact Hs | now apply _parse_data_no_slots].
  - intros s rest formatted Hs Hf HC message send call.
    rewrite (_parse_data_slots _ _ _ _ _ _ _ Hs Hf).
    cbn [fst]. change (gateway_calls (?a :: ?t)) with (gateway_calls t).
    fold (notification_text cfg formatted).
    rewrite (send_notification_calls cfg w _ HC).
    split; [reflexivity|].
    intros Hall. f_equal. now apply attempted_all.
Qed.

Lemma C6_notification_only_for_slots_witness :
  (exists s rest, available_slots Sample.mixed false = Ok (s :: rest))
  /\ (available_slots Sample.all_busy false = Ok []
      /\ _parse_data Sample.two_recipients Sample.quiet Sample.all_busy false
         = ([Log INFO NoSlotsFound], Ok tt))
  /\ gateway_calls
       (fst (_parse_data Sample.two_recipients (Sample.serving Sample.mixed)
               Sample.mixed false))
     = map (MessagesCreate "+15550000"
              ("Booking Slots Available!" ++ nl ++ nl
               ++ "Oct 22 11:00AM - 11:30AM" ++ nl ++ "Oct 21 10:00AM - 10:30AM"
               ++ nl ++ nl
               ++ "Go to: https://outlook.office365.com/book/clinic@example.com/s/tok"))
         ["+15550001"; "+15550002"].
Proof.
  split; [|split].
  - apply (proj1 (C6_notification_only_for_slots Sample.two_recipients
                    (Sample.serving Sample.mixed) Sample.mixed false)).
    vm_compute. discriminate.
  - apply (proj1 (proj2 (C6_notification_only_for_slots Sample.two_recipients
                           Sample.quiet Sample.all_busy false))); reflexivity.
  - apply (proj2 (proj2 (C6_notification_only_for_slots Sample.two_recipients
                           (Sample.serving Sample.mixed) Sample.mixed false))
             (Slot (JStr "2024-10-22T18:00:00+00:00") (JStr "2024-10-22T18:30:00+00:00"))
             [Slot (JStr "2024-10-21T17:00:00+00:00") (JStr "2024-10-21T17:30:00+00:00")]
             ("Oct 22 11:00AM - 11:30AM" ++ nl ++ "Oct 21 10:00AM - 10:30AM")
             eq_refl eq_refl eq_refl).
    intros to _. exists "SM1". reflexivity.
Defined.

(** C6 as stated fails.  With a non-empty slot list and no recipient
    configured the gateway is not invoked at all; and with two
    recipients, when the send to the first one fails the message is
    not sent to the second. *)
Lemma C6_slots_without_notification :
  available_slots Sample.mixed false
  = Ok [Slot (JStr "2024-10-22T18:00:00+00:00") (JStr "2024-10-22T18:30:00+00:00");
        Slot (JStr "2024-10-21T17:00:00+00:00") (JStr "2024-10-21T17:30:00+00:00")]
  /\ gateway_calls
       (fst (_parse_data Sample.no_recipients (Sample.serving Sample.mixed)
               Sample.mixed false)) = []
  /\ RECIPIENT_PHONE_NUMBERS Sample.two_recipients = ["+15550001"; "+15550002"]
  /\ map (fun ev => match ev with MessagesCreate _ _ to => to | _ => "" end)
       (gateway_calls
          (fst (_parse_data Sample.two_recipients Sample.first_send_fails
                  Sample.mixed false)))
     = ["+15550001"].
Proof. repeat split; reflexivity. Qed.

(** ** Test mode *)

(** In test mode the response is not looked at. *)
Lemma available_slots_test_mode (data : json) :
  available_slots data true = Ok [fixture_slot].
Proof. reflexivity. Qed.

(** The formatter depends on the two zones only through the offsets
    they give. *)
Lemma astimezone_ext (local local' tz tz' : zone) (dt : datetime) :
  (forall t, tz t = tz' t) ->
  (forall t, local t = local' t) ->
  astimezone local tz dt = astimezone local' tz' dt.
Proof.
  intros Htz Hlocal. unfold astimezone, local_offset.
  destruct (utcoffset dt) as [o|]; cbn [rbind].
  - now rewrite !Htz.
  - rewrite !Hlocal.
    destruct (negb (in_range (wall_clock dt + local' (wall_clock dt))));
      [reflexivity|].
    destruct (negb (in_range (wall_clock dt - 86400))); [reflexivity|].
    cbn [rbind]. now rewrite !Htz.
Qed.

Lemma format_slot_ext (tz tz' local local' : zone) (s : slot) :
  (forall t, tz t = tz' t) ->
  (forall t, local t = local' t) ->
  format_slot tz local s = format_slot tz' local' s.
Proof.
  intros Htz Hlocal. unfold format_slot.
  destruct (fromisoformat (startDateTime s)) as [a|e]; cbn [rbind]; [|reflexivity].
  rewrite (astimezone_ext local local' tz tz' a Htz Hlocal).
  destruct (astimezone local' tz' a) as [a'|e]; cbn [rbind]; [|reflexivity].
  destruct (fromisoformat (endDateTime s)) as [b|e]; cbn [rbind]; [|reflexivity].
  now rewrite (astimezone_ext local local' tz tz' b Htz Hlocal).
Qed.

Lemma _format_available_slots_ext (tz tz' local local' : zone) (slots : list slot) :
  (forall t, tz t = tz' t) ->
  (forall t, local t = local' t) ->
  _format_available_slots tz local slots = _format_available_slots tz' local' slots.
Proof.
  intros Htz Hlocal. unfold _format_available_slots. f_equal.
  generalize (@nil string) as acc.
  induction slots as [|s rest IH]; intros acc; cbn [format_slots]; [reflexivity|].
  rewrite (format_slot_ext tz tz' local local' s Htz Hlocal).
  destruct (format_slot tz' local' s); cbn [rbind]; [apply IH | reflexivity].
Qed.

(** The fixture timestamps carry no offset: they are read on the
    host's clock.  On a host at offset zero, Los Angeles shows them at
    11:00 and 11:30 in the morning. *)
Lemma fixture_formatted (tz local : zone) :
  (forall t, tz t = America_Los_Angeles t) ->
  (forall t, local t = 0) ->
  _format_available_slots tz local [fixture_slot] = Ok "Oct 22 11:00AM - 11:30AM".
Proof.
  intros Htz Hlocal.
  rewrite (_format_available_slots_ext tz America_Los_Angeles local UTC _ Htz Hlocal).
  reflexivity.
Qed.

(** C8, as amended.  In test mode the parser ignores the response and
    returns the one fixture slot, 2024-10-22T18:00:00 to
    2024-10-22T18:30:00.  On a host whose local zone is UTC, the
    formatter under America/Los_Angeles renders it as
    "Oct 22 11:00AM - 11:30AM", and, Twilio accepting every send, the
    gateway is invoked once for each non-blank configured recipient,
    in order, with the message made of that line and the booking
    link. *)
Theorem C8_test_mode_notifies_the_fixture
  (cfg : settings) (w : world) (data : json)
  (Hdisplay : forall t, TIMEZONE cfg t = America_Los_Angeles t)
  (Hhost : forall t, local_zone w t = 0)
  (Hclient : Client w (ACCOUNT_SID cfg) (AUTH_TOKEN cfg) = Ok tt)
  (Hsends : forall body to, exists sid,
      messages_create w (TWILIO_PHONE_NUMBER cfg) body to = Ok sid) :
  available_slots data true
  = Ok [Slot (JStr "2024-10-22T18:00:00") (JStr "2024-10-22T18:30:00")]
  /\ _format_available_slots (TIMEZONE cfg) (local_zone w) [fixture_slot]
     = Ok "Oct 22 11:00AM - 11:30AM"
  /\ gateway_calls (fst (_parse_data cfg w data true))
     = map (MessagesCreate (TWILIO_PHONE_NUMBER cfg)
              ("Booking Slots Available!" ++ nl ++ nl
               ++ "Oct 22 11:00AM - 11:30AM" ++ nl ++ nl
               ++ "Go to: " ++ GET_URL cfg))
         (targets (RECIPIENT_PHONE_NUMBERS cfg))
  /\ snd (_parse_data cfg w data true) = Ok tt.
Proof.
  pose proof (fixture_formatted _ _ Hdisplay Hhost) as Hf.
  split; [reflexivity|]. split; [exact Hf|].
  rewrite (_parse_data_slots cfg w data true fixture_slot [] _ eq_refl Hf).
  split; [|reflexivity].
  cbn [fst]. change (gateway_calls (?a :: ?t)) with (gateway_calls t).
  rewrite (send_notification_calls cfg w _ Hclient).
  f_equal. apply attempted_all. intros to _. apply Hsends.
Qed.

Lemma C8_test_mode_notifies_the_fixture_witness :
  available_slots Sample.all_busy true
  = Ok [Slot (JStr "2024-10-22T18:00:00") (JStr "2024-10-22T18:30:00")]
  /\ _format_available_slots (TIMEZONE Sample.three_recipients)
       (local_zone Sample.quiet) [fixture_slot]
     = Ok "Oct 22 11:00AM - 11:30AM"
  /\ gateway_calls (fst (_parse_data Sample.three_recipients Sample.quiet Sample.all_busy true))
     = map (MessagesCreate (TWILIO_PHONE_NUMBER Sample.three_recipients)
              ("Booking Slots Available!" ++ nl ++ nl
               ++ "Oct 22 11:00AM - 11:30AM" ++ nl ++ nl
               ++ "Go to: " ++ GET_URL Sample.three_recipients))
         (targets (RECIPIENT_PHONE_NUMBERS Sample.three_recipients))
  /\ snd (_parse_data Sample.three_recipients Sample.quiet Sample.all_busy true) = Ok tt.
Proof.
  apply (C8_test_mode_notifies_the_fixture Sample.three_recipients Sample.quiet
           Sample.all_busy).
  - reflexivity.
  - reflexivity.
  - reflexivity.
  - intros body to. exists "SM1". reflexivity.
Defined.

(** C8 as stated fails.  On a host whose clock is seven hours behind
    UTC the fixture is rendered as "Oct 22 06:00PM - 06:30PM", and that
    is the line the message carries; and on a host on UTC, when the
    send to the first of two recipients fails the gateway is not
    invoked for the second. *)
Lemma C8_host_zone_changes_the_line :
  local_zone Sample.host_utc_minus_7 0 = - (7 * 3600)
  /\ _format_available_slots America_Los_Angeles (local_zone Sample.host_utc_minus_7)
       [fixture_slot]
     = Ok "Oct 22 06:00PM - 06:30PM"
  /\ gateway_calls
       (fst (_parse_data Sample.one_recipient Sample.host_utc_minus_7 JNull true))
     = [MessagesCreate "+15550000"
          ("Booking Slots Available!" ++ nl ++ nl
           ++ "Oct 22 06:00PM - 06:30PM" ++ nl ++ nl
           ++ "Go to: https://outlook.office365.com/book/clinic@example.com/s/tok")
          "+15550001"]
  /\ RECIPIENT_PHONE_NUMBERS Sample.two_recipients = ["+15550001"; "+15550002"]
  /\ gateway_calls
       (fst (_parse_data Sample.two_recipients Sample.first_send_fails JNull true))
     = [MessagesCreate "+15550000"
          ("Booking Slots Available!" ++ nl ++ nl
           ++ "Oct 22 11:00AM - 11:30AM" ++ nl ++ nl
           ++ "Go to: https://outlook.office365.com/book/clinic@example.com/s/tok")
          "+15550001"].
Proof. repeat split; reflexivity. Qed.

(** ** What the loop survives *)

Lemma digit_val_range (c : ascii) (n : Z) : digit_val c = Some n -> 0 <= n <= 9.
Proof.
  unfold digit_val.
  destruct ((48 <=? Z.of_nat (nat_of_ascii c)) && (Z.of_nat (nat_of_ascii c) <=? 57)) eqn:E;
    [|discriminate].
  intros H. inversion H. apply andb_prop in E as (E1 & E2).
  apply Z.leb_le in E1, E2. lia.
Qed.

Lemma two_digits_range (a b : ascii) (n : Z) : two_digits a b = Some n -> 0 <= n <= 99.
Proof.
  unfold two_digits.
  destruct (digit_val a) as [x|] eqn:Ea; [|discriminate].
  destruct (digit_val b) as [y|] eqn:Eb; [|discriminate].
  intros H. inversion H.
  apply digit_val_range in Ea, Eb. lia.
Qed.

Lemma parse_time_range (cs rest : list ascii) (sod : Z) :
  parse_time cs = Some (sod, rest) -> 0 <= sod < 86400.
Proof.
  unfold parse_time. intros H.
  repeat match type of H with
         | context [match ?x with _ => _ end] => destruct x eqn:?; try discriminate H
         end.
  inversion H; subst.
  repeat match goal with
         | E : two_digits _ _ = Some _ |- _ => apply two_digits_range in E
         | E : (_ && _) = true |- _ => apply andb_prop in E as (? & ?)
         | E : (_ <=? _) = true |- _ => apply Z.leb_le in E
         end.
  lia.
Qed.

Lemma parse_offset_range (cs : list ascii) (o : Z) :
  parse_offset cs = Some (Some o) -> - 86400 < o < 86400.
Proof.
  unfold parse_offset. intros H.
  repeat match type of H with
         | context [match ?x with _ => _ end] => destruct x eqn:?; try discriminate H
         end;
  inversion H; subst;
  repeat match goal with
         | E : two_digits _ _ = Some _ |- _ => apply two_digits_range in E
         | E : (_ && _) = true |- _ => apply andb_prop in E as (? & ?)
         | E : (_ <=? _) = true |- _ => apply Z.leb_le in E
         end;
  lia.
Qed.

(** What [fromisoformat] reads is a time of day, with an offset shorter
    than a day. *)
Lemma parse_iso_range (s : string) (dt : datetime) :
  parse_iso s = Some dt ->
  0 <= second_of_day dt < 86400
  /\ forall o, utcoffset dt = Some o -> - 86400 < o < 86400.
Proof.
  unfold parse_iso. intros H.
  destruct (parse_date (list_ascii_of_string s)) as [[ord [|sep rest]]|];
    try discriminate H.
  - inversion H. cbn. split; [lia | discriminate].
  - destruct (parse_time rest) as [[sod rest']|] eqn:Et; [|discriminate H].
    destruct (parse_offset rest') as [off|] eqn:Eo; [|discriminate H].
    inversion H. cbn [second_of_day utcoffset].
    split; [exact (parse_time_range _ _ _ Et)|].
    intros o Ho. subst off. exact (parse_offset_range _ _ Eo).
Qed.

(** A string that does not begin with a decimal digit is rejected. *)
Lemma parse_iso_leading (c : ascii) (rest : string) :
  is_digit c = false -> parse_iso (String c rest) = None.
Proof.
  unfold is_digit. intros Hc.
  destruct (digit_val c) eqn:Ec; [discriminate Hc|].
  assert (Hd : parse_date (list_ascii_of_string (String c rest)) = None).
  { unfold parse_date. cbn [list_ascii_of_string].
    repeat match goal with
           | |- match list_ascii_of_string ?x with _ => _ end = None =>
               destruct (list_ascii_of_string x); [reflexivity|]
           | |- match ?l with [] => _ | _ :: _ => _ end = None =>
               destruct l; [reflexivity|]
           | |- match ?a with Ascii _ _ _ _ _ _ _ _ => _ end = None =>
               destruct a as [[] [] [] [] [] [] [] []]; try reflexivity
           end.
    all: unfold two_digits at 1; rewrite Ec; reflexivity. }
  unfold parse_iso. now rewrite Hd.
Qed.

Lemma in_range_spec (wall : Z) :
  in_range wall = true <-> MIN_WALL <= wall <= MAX_WALL.
Proof.
  unfold in_range. rewrite andb_true_iff, !Z.leb_le. tauto.
Qed.

(** A reading two days inside the range stays in the range through the
    conversions of [astimezone]. *)
Lemma astimezone_within_reach (local tz : zone) (dt : datetime) :
  zone_bounded tz ->
  zone_bounded local ->
  3 <= ordinal dt <= 3652057 ->
  0 <= second_of_day dt < 86400 ->
  (forall o, utcoffset dt = Some o -> - 86400 < o < 86400) ->
  exists dt', astimezone local tz dt = Ok dt'.
Proof.
  intros Htz Hlocal Hord Hsod Hoff.
  assert (Hwall : 3 * 86400 <= wall_clock dt < 3652058 * 86400)
    by (unfold wall_clock; lia).
  assert (Hin : forall x, MIN_WALL <= x <= MAX_WALL -> negb (in_range x) = false).
  { intros x Hx. apply in_range_spec in Hx. now rewrite Hx. }
  unfold astimezone.
  assert (Hfirst : exists off,
             match utcoffset dt with
             | Some o => Ok o
             | None => local_offset local (wall_clock dt)
             end = Ok off /\ - 86400 < off < 86400).
  { destruct (utcoffset dt) as [o|]; [exists o; split; [reflexivity | now apply Hoff]|].
    exists (local (wall_clock dt)). split; [|apply Hlocal].
    unfold local_offset. pose proof (Hlocal (wall_clock dt)) as Hb.
    rewrite !Hin by (unfold MIN_WALL, MAX_WALL; lia). reflexivity. }
  destruct Hfirst as (off & -> & Hb). cbn [rbind].
  pose proof (Htz (wall_clock dt - off)) as Hb'.
  rewrite !Hin by (unfold MIN_WALL, MAX_WALL; lia). eauto.
Qed.

Section Handled.

Variables tz local : zone.
Hypothesis Htz : zone_bounded tz.
Hypothesis Hlocal : zone_bounded local.

(** A handled timestamp is rendered or rejected with [ValueError]. *)
Lemma timestamp_handled_read (v : json) :
  timestamp_handled v = true ->
  (exists dt dt', fromisoformat v = Ok dt /\ astimezone local tz dt = Ok dt')
  \/ (exists msg, fromisoformat v = Err (ValueError msg)).
Proof.
  destruct v as [| | | |s| |]; try discriminate.
  destruct s as [|c rest]; [intros _; right; eexists; reflexivity|].
  cbn [timestamp_handled]. destruct (is_digit c) eqn:Ec.
  - unfold within_reach, fromisoformat.
    destruct (parse_iso (String c rest)) as [dt|] eqn:Ep; [|discriminate].
    intros H. apply andb_prop in H as (H1 & H2). apply Z.leb_le in H1, H2.
    destruct (parse_iso_range _ _ Ep) as (Hsod & Hoff).
    destruct (astimezone_within_reach local tz dt Htz Hlocal (conj H1 H2) Hsod Hoff)
      as (dt' & Hdt').
    left. eauto.
  - intros _. right. unfold fromisoformat.
    rewrite (parse_iso_leading c rest Ec). eexists. reflexivity.
Qed.

Lemma format_slot_handled (s : slot) :
  slot_handled s = true ->
  (exists line, format_slot tz local s = Ok line)
  \/ (exists msg, format_slot tz local s = Err (ValueError msg)).
Proof.
  unfold slot_handled, format_slot. intros H. apply andb_prop in H as (Hs & He).
  destruct (timestamp_handled_read _ Hs) as [(a & a' & -> & Ha) | (msg & ->)];
    cbn [rbind]; [|eauto].
  rewrite Ha. cbn [rbind].
  destruct (timestamp_handled_read _ He) as [(b & b' & -> & Hb) | (msg & ->)];
    cbn [rbind]; [|eauto].
  rewrite Hb. cbn [rbind]. eauto.
Qed.

Lemma format_slots_handled (slots : list slot) :
  forallb slot_handled slots = true ->
  forall acc,
    (exists lines, format_slots tz local slots acc = Ok lines)
    \/ (exists msg, format_slots tz local slots acc = Err (ValueError msg)).
Proof.
  induction slots as [|s rest IH]; cbn [forallb format_slots]; intros H acc; [eauto|].
  apply andb_prop in H as (Hs & Hrest).
  destruct (format_slot_handled s Hs) as [(line & ->) | (msg & ->)];
    cbn [rbind]; [now apply IH | eauto].
Qed.

Lemma _format_available_slots_handled (slots : list slot) :
  forallb slot_handled slots = true ->
  (exists formatted, _format_available_slots tz local slots = Ok formatted)
  \/ (exists msg, _format_available_slots tz local slots = Err (ValueError msg)).
Proof.
  intros H. unfold _format_available_slots.
  destruct (format_slots_handled slots H []) as [(lines & ->) | (msg & ->)];
    cbn [rbind]; eauto.
Qed.

End Handled.

(** On a handled body the parse stage returns or raises an exception
    that a handler of the loop catches. *)
Lemma parse_stage_handled (cfg : settings) (w : world) (test : bool) (r : response) :
  zone_bounded (TIMEZONE cfg) ->
  zone_bounded (local_zone w) ->
  body_handled test (json_body r) ->
  snd (parse_stage cfg w test r) = Ok tt
  \/ exists e, snd (parse_stage cfg w test r) = Err e /\ caught e = true.
Proof.
  intros Htz Hlocal.
  unfold body_handled, parse_stage.
  destruct (json_body r) as [data|e];
    [|intros H; right; exists e; split; [reflexivity | exact H]].
  intros H. cbn [lift bind log emit app].
  assert (Hp : snd (_parse_data cfg w data test) = Ok tt
               \/ exists e, snd (_parse_data cfg w data test) = Err e /\ caught e = true).
  { assert (Hslots : (exists slots, available_slots data test = Ok slots
                                     /\ forallb slot_handled slots = true)
                     \/ exists msg, available_slots data test = Err (ValueError msg)).
    { destruct H as [-> | (Hshape & Hstr)]; [left; eexists; split; reflexivity|].
      destruct test; [left; eexists; split; reflexivity|].
      destruct (available_slots_shape data Hshape) as [(slots & Hok) | (msg & Herr & _)];
        [|eauto].
      left. exists slots. split; [exact Hok|].
      now apply available_slots_sound in Hok as (-> & _). }
    destruct Hslots as [(slots & Hs & Hstr) | (msg & Hs)].
    - destruct slots as [|s rest].
      + left. now rewrite (_parse_data_no_slots _ _ _ _ Hs).
      + destruct (_format_available_slots_handled (TIMEZONE cfg) (local_zone w)
                    Htz Hlocal _ Hstr) as [(formatted & Hf) | (msg & Hf)].
        * left. now rewrite (_parse_data_slots _ _ _ _ _ _ _ Hs Hf).
        * right. rewrite (_parse_data_unformatted _ _ _ _ _ _ _ Hs Hf).
          eexists. split; reflexivity.
    - right. rewrite (_parse_data_unparsed _ _ _ _ _ Hs).
      eexists. split; reflexivity. }
  destruct (_parse_data cfg w data test) as [t res]. cbn [snd] in Hp |- *. exact Hp.
Qed.

(** No failure of a kind the loop provides for leaves an iteration. *)
Lemma iteration_survives (cfg : settings) (polling_interval : Z) (test : bool) (w : world) :
  0 <= polling_interval <= MAX_SLEEP ->
  zone_bounded (TIMEZONE cfg) ->
  handled polling_interval test w ->
  snd (iteration cfg polling_interval test w) = Ok tt.
Proof.
  intros Hpi Htz (Hg & Hlocal & H).
  destruct (session_get w) as [r1|e] eqn:Hget;
    [|now rewrite (iteration_catches_get_failure _ _ _ _ _ Hpi Hg Hget H)].
  destruct (Z.eq_dec (status_code r1) 200) as [H1|H1];
    [|now rewrite (iteration_get_status _ _ _ _ _ Hpi Hg Hget H1)].
  specialize (H H1).
  destruct (session_post w) as [r2|e] eqn:Hpost;
    [|now rewrite (iteration_catches_post_failure _ _ _ _ _ _ Hpi Hg Hget H1 Hpost H)].
  destruct (Z.eq_dec (status_code r2) 200) as [H2|H2];
    [|now rewrite (iteration_post_status _ _ _ _ _ _ Hpi Hg Hget H1 Hpost H2)].
  specialize (H H2).
  rewrite (iteration_after_requests _ _ _ _ _ _ Hpi Hg Hget H1 Hpost H2). cbn [snd].
  destruct (parse_stage_handled cfg w test r2 Htz Hlocal H) as [Hok | (e & Herr & Hc)];
    destruct (parse_stage cfg w test r2) as [t res]; cbn [snd] in *; subst res;
    cbn [settled snd]; [reflexivity|].
  unfold caught in Hc. destruct (is_ValueError e); [reflexivity|].
  cbn [orb] in Hc. now rewrite Hc.
Qed.

Lemma check_availability_survives
  (cfg : settings) (polling_interval : Z) (test : bool) (worlds : list world) :
  0 <= polling_interval <= MAX_SLEEP ->
  zone_bounded (TIMEZONE cfg) ->
  Forall (handled polling_interval test) worlds ->
  snd (check_availability cfg polling_interval test worlds) = None.
Proof.
  intros Hpi Htz H. induction H as [|w rest Hw _ IH]; [reflexivity|].
  pose proof (iteration_survives cfg polling_interval test w Hpi Htz Hw) as Hit.
  destruct (iteration cfg polling_interval test w) as [t res] eqn:E.
  cbn [snd] in Hit. subst res.
  now rewrite (check_availability_cons _ _ _ _ _ _ E).
Qed.

(** C9, at a failing input.  A body of the upstream shape except that
    the timestamps of a free item are null makes [_parse_data] raise
    [AttributeError]; neither handler of the loop catches it, so it
    leaves [check_availability]: the iteration does not sleep and the
    next one never starts. *)
Theorem C9_null_timestamp_ends_the_process :
  json_body {| status_code := 200; text := "";
               json_body := Ok Sample.null_timestamps |}
  = Ok (JDict
          [("staffAvailabilityResponse",
             JList
               [JDict
                  [("availabilityItems",
                     JList
                       [JDict [("status", JStr "BOOKINGSAVAILABILITYSTATUS_AVAILABLE");
                               ("startDateTime", JNull);
                               ("endDateTime", JNull)]])]])])
  /\ snd (check_availability Sample.one_recipient 60 false
            [Sample.served_null_timestamps; Sample.quiet])
     = Some (AttributeError "NoneType object has no attribute 'get'")
  /\ filter is_get
       (fst (check_availability Sample.one_recipient 60 false
               [Sample.served_null_timestamps; Sample.quiet]))
     = [HttpGet "https://outlook.office365.com/book/clinic@example.com/s/tok"]
  /\ filter is_sleep
       (fst (check_availability Sample.one_recipient 60 false
               [Sample.served_null_timestamps; Sample.quiet]))
     = [].
Proof. repeat split; reflexivity. Qed.

(** * Further properties *)

(** ** Finding and loading the configuration *)

Section ConfigSearch.

Import Config.

Variable exists_ : path -> bool.
Variable filename : string.

Lemma dirname_root (d : path) : path_eqb d (dirname d) = true <-> d = [].
Proof.
  unfold path_eqb, dirname.
  destruct (list_eq_dec string_dec d (removelast d)) as [E|E]; split; intros H;
    try discriminate; try reflexivity.
  - destruct d as [|c d]; [reflexivity|].
    apply (f_equal (@List.length string)) in E.
    rewrite removelast_firstn_len, length_firstn in E. cbn [List.length] in E. lia.
  - subst d. now contradiction E.
Qed.

Lemma ancestor_of_parent (d : path) (k : nat) :
  (k < List.length d)%nat -> firstn k (dirname d) = firstn k d.
Proof.
  intros Hk. unfold dirname. rewrite removelast_firstn_len, firstn_firstn.
  f_equal. lia.
Qed.

(** What the loop returns, when it is given turns enough to reach the
    root. *)
Lemma search_upwards_spec (turns : nat) :
  forall d : path,
    (List.length d < turns)%nat ->
    match search_upwards exists_ filename turns d with
    | Some p =>
        exists k, (k <= List.length d)%nat
                  /\ p = join (ancestor d k) filename
                  /\ exists_ p = true
                  /\ forall j, (k < j <= List.length d)%nat ->
                               exists_ (join (ancestor d j) filename) = false
    | None =>
        forall k, (k <= List.length d)%nat ->
                  exists_ (join (ancestor d k) filename) = false
    end.
Proof.
  induction turns as [|turns IH]; intros d Hlen; [lia|].
  cbn [search_upwards].
  destruct (exists_ (join d filename)) eqn:Ehere.
  - exists (List.length d). unfold ancestor. rewrite firstn_all.
    repeat split; [lia | exact Ehere | intros j Hj; lia].
  - destruct (path_eqb d (dirname d)) eqn:Eroot.
    + apply dirname_root in Eroot. subst d. intros k Hk.
      cbn [List.length] in Hk. replace k with O by lia. exact Ehere.
    + assert (Hne : d <> []).
      { intros ->. now rewrite (proj2 (dirname_root []) eq_refl) in Eroot. }
      assert (Hpos : (0 < List.length d)%nat).
      { destruct d; [now contradiction Hne | cbn; lia]. }
      assert (Hparent : List.length (dirname d) = pred (List.length d)).
      { unfold dirname. rewrite removelast_firstn_len, length_firstn. lia. }
      specialize (IH (dirname d)). rewrite Hparent in IH.
      specialize (IH ltac:(lia)).
      destruct (search_upwards exists_ filename turns (dirname d)) as [p|].
      * destruct IH as (k & Hk & Hp & Hex & Hnear).
        exists k. unfold ancestor in *.
        rewrite ancestor_of_parent in Hp by lia.
        repeat split; [lia | exact Hp | exact Hex |].
        intros j Hj. destruct (Nat.eq_dec j (List.length d)) as [->|Hj'].
        -- now rewrite firstn_all.
        -- rewrite <- (ancestor_of_parent d j) by lia. apply Hnear. lia.
      * intros k Hk. unfold ancestor in *.
        destruct (Nat.eq_dec k (List.length d)) as [->|Hk'].
        -- now rewrite firstn_all.
        -- rewrite <- (ancestor_of_parent d k) by lia. apply IH. lia.
Qed.

End ConfigSearch.

Lemma find_config_file_spec
  (exists_ : Config.path -> bool) (cwd : Config.path) (filename : string) :
  match Config.find_config_file exists_ cwd filename with
  | Some p =>
      exists k,
        (k <= List.length cwd)%nat
        /\ p = Config.join (Config.ancestor cwd k) filename
        /\ exists_ p = true
        /\ forall j, (k < j <= List.length cwd)%nat ->
                     exists_ (Config.join (Config.ancestor cwd j) filename) = false
  | None =>
      forall k, (k <= List.length cwd)%nat ->
                exists_ (Config.join (Config.ancestor cwd k) filename) = false
  end.
Proof.
  unfold Config.find_config_file.
  exact (search_upwards_spec exists_ filename (S (List.length cwd)) cwd
           (Nat.lt_succ_diag_r _)).
Qed.

Lemma find_config_file_none
  (exists_ : Config.path -> bool) (cwd : Config.path) (filename : string) :
  (forall k, (k <= List.length cwd)%nat ->
             exists_ (Config.join (Config.ancestor cwd k) filename) = false) ->
  Config.find_config_file exists_ cwd filename = None.
Proof.
  intros Hnone. pose proof (find_config_file_spec exists_ cwd filename) as H.
  destruct (Config.find_config_file exists_ cwd filename) as [p|]; [|reflexivity].
  destruct H as (k & Hk & -> & Hex & _). rewrite (Hnone k Hk) in Hex. discriminate.
Qed.

(** [find_config_file] returns the file of the nearest directory that
    has one: a path [dir/filename] that exists, where [dir] is the
    working directory or one of its ancestors, and no directory between
    the working directory and [dir] holds such a file. *)
Theorem find_config_file_nearest
  (exists_ : Config.path -> bool) (cwd : Config.path) (filename : string)
  (p : Config.path)
  (Hfound : Config.find_config_file exists_ cwd filename = Some p) :
  exists k,
    (k <= List.length cwd)%nat
    /\ p = Config.join (Config.ancestor cwd k) filename
    /\ exists_ p = true
    /\ forall j, (k < j <= List.length cwd)%nat ->
                 exists_ (Config.join (Config.ancestor cwd j) filename) = false.
Proof.
  pose proof (find_config_file_spec exists_ cwd filename) as H.
  rewrite Hfound in H. exact H.
Qed.

Lemma find_config_file_nearest_witness :
  exists k,
    (k <= List.length ["home"; "dev"; "checker"; "src"])%nat
    /\ ["home"; "dev"; "config.yaml"]
       = Config.join (Config.ancestor ["home"; "dev"; "checker"; "src"] k) "config.yaml"
    /\ Config.path_eqb ["home"; "dev"; "config.yaml"] ["home"; "dev"; "config.yaml"] = true
    /\ forall j, (k < j <= List.length ["home"; "dev"; "checker"; "src"])%nat ->
                 Config.path_eqb
                   (Config.join (Config.ancestor ["home"; "dev"; "checker"; "src"] j)
                      "config.yaml")
                   ["home"; "dev"; "config.yaml"] = false.
Proof.
  apply (find_config_file_nearest
           (fun q => Config.path_eqb q ["home"; "dev"; "config.yaml"])
           ["home"; "dev"; "checker"; "src"] "config.yaml"
           ["home"; "dev"; "config.yaml"]).
  reflexivity.
Defined.

(** [find_config_file] returns [None] exactly when neither the working
    directory nor any of its ancestors, the root included, holds the
    file. *)
Theorem find_config_file_none_iff
  (exists_ : Config.path -> bool) (cwd : Config.path) (filename : string) :
  Config.find_config_file exists_ cwd filename = None
  <-> forall k, (k <= List.length cwd)%nat ->
                exists_ (Config.join (Config.ancestor cwd k) filename) = false.
Proof.
  split; [|apply find_config_file_none].
  intros Hnone. pose proof (find_config_file_spec exists_ cwd filename) as H.
  rewrite Hnone in H. exact H.
Qed.

Lemma find_config_file_here (exists_ : Config.path -> bool) (d : Config.path)
  (filename : string) :
  exists_ (Config.join d filename) = true ->
  Config.find_config_file exists_ d filename = Some (Config.join d filename).
Proof.
  intros H. unfold Config.find_config_file. cbn [Config.search_upwards]. now rewrite H.
Qed.

Lemma dirname_join (d : Config.path) (name : string) :
  Config.dirname (Config.join d name) = d.
Proof. unfold Config.dirname, Config.join. apply removelast_last. Qed.

(** When neither the working directory nor any of its ancestors holds
    the file, [load_config] raises [FileNotFoundError] naming the file,
    before changing the working directory or reading anything. *)
Theorem load_config_without_file
  (fs : Config.filesystem) (cwd : Config.path) (config_file : string)
  (Hnone : forall k, (k <= List.length cwd)%nat ->
     Config.exists_ fs (Config.join (Config.ancestor cwd k) config_file) = false) :
  Config.load_config fs cwd config_file
  = ([], inl (Config.FileNotFoundError
                ("'" ++ config_file ++ "' not found in any parent directories."))).
Proof.
  apply find_config_file_none in Hnone.
  unfold Config.load_config. now rewrite Hnone.
Qed.

Lemma load_config_without_file_witness :
  Config.load_config
    {| Config.exists_ := fun _ => false; Config.safe_load := fun _ => inr JNull |}
    ["home"; "dev"] "config.yaml"
  = ([], inl (Config.FileNotFoundError
                "'config.yaml' not found in any parent directories.")).
Proof.
  apply (load_config_without_file
           {| Config.exists_ := fun _ => false; Config.safe_load := fun _ => inr JNull |}
           ["home"; "dev"] "config.yaml").
  intros k _. reflexivity.
Defined.

(** When the working directory or one of its ancestors holds the file,
    [load_config] moves to the nearest such directory, reads the file
    there and returns what the YAML loader makes of it; a search
    started again from the new working directory finds the same file
    at once. *)
Theorem load_config_moves_next_to_the_file
  (fs : Config.filesystem) (cwd : Config.path) (config_file : string) (k0 : nat)
  (Hk0 : (k0 <= List.length cwd)%nat)
  (Hsome : Config.exists_ fs (Config.join (Config.ancestor cwd k0) config_file) = true) :
  exists k,
    (k0 <= k <= List.length cwd)%nat
    /\ let dir := Config.ancestor cwd k in
       let p := Config.join dir config_file in
       Config.exists_ fs p = true
       /\ Config.load_config fs cwd config_file
          = ([Config.Chdir dir; Config.LogUsingConfig p; Config.OpenRead p],
             Config.safe_load fs p)
       /\ Config.cwd_after cwd (fst (Config.load_config fs cwd config_file)) = dir
       /\ Config.find_config_file (Config.exists_ fs) dir config_file = Some p.
Proof.
  pose proof (find_config_file_spec (Config.exists_ fs) cwd config_file) as Hspec.
  destruct (Config.find_config_file (Config.exists_ fs) cwd config_file) as [p|] eqn:E.
  - destruct Hspec as (k & Hk & Hp & Hex & Hnear).
    exists k. split.
    + split; [|exact Hk].
      destruct (Nat.le_gt_cases k0 k) as [Hle|Hgt]; [exact Hle|].
      rewrite (Hnear k0 (conj Hgt Hk0)) in Hsome. discriminate.
    + cbv zeta. rewrite <- Hp.
      assert (Hload : Config.load_config fs cwd config_file
                      = ([Config.Chdir (Config.ancestor cwd k);
                          Config.LogUsingConfig p; Config.OpenRead p],
                         Config.safe_load fs p)).
      { unfold Config.load_config. rewrite E, Hp, dirname_join. reflexivity. }
      rewrite Hload. repeat split; [exact Hex|].
      rewrite Hp. apply find_config_file_here. now rewrite <- Hp.
  - rewrite (Hspec k0 Hk0) in Hsome. discriminate.
Qed.

Lemma load_config_moves_next_to_the_file_witness :
  exists k,
    (2 <= k <= List.length ["home"; "dev"; "checker"; "src"])%nat
    /\ let dir := Config.ancestor ["home"; "dev"; "checker"; "src"] k in
       let p := Config.join dir "config.yaml" in
       Config.path_eqb p ["home"; "dev"; "config.yaml"] = true
       /\ Config.load_config
            {| Config.exists_ := fun q => Config.path_eqb q ["home"; "dev"; "config.yaml"];
               Config.safe_load := fun _ => inr (JDict []) |}
            ["home"; "dev"; "checker"; "src"] "config.yaml"
          = ([Config.Chdir dir; Config.LogUsingConfig p; Config.OpenRead p],
             inr (JDict []))
       /\ Config.cwd_after ["home"; "dev"; "checker"; "src"]
            (fst (Config.load_config
                    {| Config.exists_ :=
                         fun q => Config.path_eqb q ["home"; "dev"; "config.yaml"];
                       Config.safe_load := fun _ => inr (JDict []) |}
                    ["home"; "dev"; "checker"; "src"] "config.yaml")) = dir
       /\ Config.find_config_file
            (fun q => Config.path_eqb q ["home"; "dev"; "config.yaml"])
            dir "config.yaml" = Some p.
Proof.
  apply (load_config_moves_next_to_the_file
           {| Config.exists_ := fun q => Config.path_eqb q ["home"; "dev"; "config.yaml"];
              Config.safe_load := fun _ => inr (JDict []) |}
           ["home"; "dev"; "checker"; "src"] "config.yaml" 2).
  - cbn. lia.
  - reflexivity.
Defined.

(** ** More on the parser *)

(** An item is skipped only if it is an object. *)
Lemma excluded_is_dict (i : json) :
  excluded i = true -> exists kvs, i = JDict kvs.
Proof. destruct i; try discriminate. eauto. Qed.

Lemma parse_item_excluded (i : json) :
  excluded i = true -> parse_item i = Ok None.
Proof.
  intros H. destruct (excluded_is_dict i H) as (kvs & ->).
  unfold parse_item.
  assert (Hst : get (JDict kvs) "status" = Ok (field (JDict kvs) "status")).
  { unfold get, get_default, field. destruct (assoc "status" kvs); reflexivity. }
  rewrite Hst. cbn [rbind]. fold (excluded (JDict kvs)). now rewrite H.
Qed.

Lemma parse_items_without_excluded (items : list json) :
  forall acc, parse_items (filter bookable items) acc = parse_items items acc.
Proof.
  induction items as [|i rest IH]; intros acc; [reflexivity|].
  cbn [filter]. unfold bookable at 1.
  destruct (excluded i) eqn:E; cbn [negb].
  - cbn [parse_items]. rewrite (parse_item_excluded i E). cbn [rbind]. apply IH.
  - cbn [parse_items]. destruct (parse_item i) as [r|e]; cbn [rbind]; [apply IH | reflexivity].
Qed.

(** The accumulator only prefixes what the loops collect. *)
Lemma parse_items_acc (items : list json) :
  forall acc,
    parse_items items acc
    = (s <- parse_items items [] ;; Ok (acc ++ s)%list).
Proof.
  induction items as [|i rest IH]; intros acc; cbn [parse_items].
  - cbn [rbind]. now rewrite app_nil_r.
  - destruct (parse_item i) as [[s|]|e]; cbn [rbind]; [| apply IH | reflexivity].
    rewrite (IH (acc ++ [s])%list), (IH ([] ++ [s])%list).
    destruct (parse_items rest []) as [r|e]; cbn [rbind]; [|reflexivity].
    now rewrite <- !app_assoc.
Qed.

Lemma parse_staff_acc (staff : json) (acc : list slot) :
  parse_staff staff acc = (s <- parse_staff staff [] ;; Ok (acc ++ s)%list).
Proof.
  unfold parse_staff.
  destruct (get staff "availabilityItems") as [ai|e]; cbn [rbind]; [|reflexivity].
  destruct ai; try reflexivity;
    (destruct (iter _) as [items|e]; cbn [rbind]; [|reflexivity]);
    rewrite (parse_items_acc items acc);
    destruct (parse_items items []) as [r|e]; reflexivity.
Qed.

Lemma parse_staffs_acc (staffs : list json) :
  forall acc,
    parse_staffs staffs acc
    = (s <- parse_staffs staffs [] ;; Ok (acc ++ s)%list).
Proof.
  induction staffs as [|st rest IH]; intros acc; cbn [parse_staffs].
  - cbn [rbind]. now rewrite app_nil_r.
  - rewrite (parse_staff_acc st acc).
    destruct (parse_staff st []) as [s|e]; cbn [rbind app]; [|reflexivity].
    rewrite (IH (acc ++ s)%list), (IH s).
    destruct (parse_staffs rest []) as [r|e]; cbn [rbind]; [|reflexivity].
    now rewrite <- app_assoc.
Qed.

Lemma parse_staffs_app (a b : list json) :
  forall acc,
    parse_staffs (a ++ b) acc = (s <- parse_staffs a acc ;; parse_staffs b s).
Proof.
  induction a as [|st rest IH]; intros acc; cbn [app parse_staffs rbind]; [reflexivity|].
  destruct (parse_staff st acc) as [s|e]; cbn [rbind]; [apply IH | reflexivity].
Qed.

Lemma available_slots_of_list (kvs : list (string * json)) (staffs : list json) :
  assoc "staffAvailabilityResponse" kvs = Some (JList staffs) ->
  staffs <> [] ->
  available_slots (JDict kvs) false = parse_staffs staffs [].
Proof.
  intros Hk Hne. unfold available_slots, get, get_default. rewrite Hk.
  destruct staffs; [now contradiction Hne | reflexivity].
Qed.

(** Parsing a response whose staff list is the concatenation of two
    non-empty lists is parsing the two parts in turn: the error of the
    first part, else the error of the second, else the slots of the
    first followed by those of the second. *)
Theorem available_slots_of_concatenated_staff
  (kvs1 kvs2 kvs : list (string * json)) (l1 l2 : list json)
  (H1 : assoc "staffAvailabilityResponse" kvs1 = Some (JList l1))
  (H2 : assoc "staffAvailabilityResponse" kvs2 = Some (JList l2))
  (H12 : assoc "staffAvailabilityResponse" kvs = Some (JList (l1 ++ l2)))
  (Hne1 : l1 <> [])
  (Hne2 : l2 <> []) :
  available_slots (JDict kvs) false
  = match available_slots (JDict kvs1) false with
    | Err e => Err e
    | Ok s1 =>
        match available_slots (JDict kvs2) false with
        | Err e => Err e
        | Ok s2 => Ok (s1 ++ s2)%list
        end
    end.
Proof.
  rewrite (available_slots_of_list kvs1 l1 H1 Hne1).
  rewrite (available_slots_of_list kvs2 l2 H2 Hne2).
  rewrite (available_slots_of_list kvs (l1 ++ l2) H12).
  - rewrite parse_staffs_app.
    destruct (parse_staffs l1 []) as [s1|e]; cbn [rbind]; [|reflexivity].
    rewrite (parse_staffs_acc l2 s1).
    destruct (parse_staffs l2 []) as [s2|e]; reflexivity.
  - destruct l1; [now contradiction Hne1 | discriminate].
Qed.

Lemma available_slots_of_concatenated_staff_witness :
  available_slots
    (Sample.response_of
       ([Sample.staff_of [Sample.item Sample.AVAILABLE "2024-10-21T17:00:00+00:00"
                            "2024-10-21T17:30:00+00:00"]]
        ++ [Sample.staff_of [Sample.item_without_end]])) false
  = match available_slots
            (Sample.response_of
               [Sample.staff_of [Sample.item Sample.AVAILABLE "2024-10-21T17:00:00+00:00"
                                   "2024-10-21T17:30:00+00:00"]]) false with
    | Err e => Err e
    | Ok s1 =>
        match available_slots
                (Sample.response_of [Sample.staff_of [Sample.item_without_end]]) false with
        | Err e => Err e
        | Ok s2 => Ok (s1 ++ s2)%list
        end
    end.
Proof.
  apply (available_slots_of_concatenated_staff _ _ _
           [Sample.staff_of [Sample.item Sample.AVAILABLE "2024-10-21T17:00:00+00:00"
                               "2024-10-21T17:30:00+00:00"]]
           [Sample.staff_of [Sample.item_without_end]]);
    try reflexivity; discriminate.
Defined.

Lemma assoc_update (key : string) (f : json -> json) (kvs : list (string * json)) :
  assoc key (update key f kvs) = option_map f (assoc key kvs).
Proof.
  induction kvs as [|[k v] rest IH]; [reflexivity|]. cbn [update assoc].
  destruct (key =? k)%string eqn:E; cbn [assoc]; rewrite E; [reflexivity | exact IH].
Qed.

Lemma parse_staff_pruned (staff : json) (acc : list slot) :
  parse_staff (prune_staff staff) acc = parse_staff staff acc.
Proof.
  destruct staff as [| | | | | |kvs]; try reflexivity.
  unfold parse_staff, prune_staff, get, get_default. rewrite assoc_update.
  destruct (assoc "availabilityItems" kvs) as [v|]; cbn [option_map rbind]; [|reflexivity].
  destruct v; try reflexivity.
  cbn [without_excluded iter rbind]. apply parse_items_without_excluded.
Qed.

Lemma parse_staffs_pruned (staffs : list json) :
  forall acc, parse_staffs (map prune_staff staffs) acc = parse_staffs staffs acc.
Proof.
  induction staffs as [|staff rest IH]; intros acc; [reflexivity|].
  cbn [map parse_staffs]. rewrite parse_staff_pruned.
  destruct (parse_staff staff acc) as [s|e]; cbn [rbind]; [apply IH | reflexivity].
Qed.

Lemma field_update (key : string) (f : json -> json) (kvs : list (string * json)) :
  f JNull = JNull ->
  field (JDict (update key f kvs)) key = f (field (JDict kvs) key).
Proof.
  intros Hf. unfold field. rewrite assoc_update.
  destruct (assoc key kvs); cbn [option_map]; [reflexivity | now rewrite Hf].
Qed.

Lemma items_of_pruned (staff : json) :
  items_of (prune_staff staff) = filter bookable (items_of staff).
Proof.
  destruct staff as [| | | | | |kvs]; try reflexivity.
  unfold items_of, prune_staff. rewrite field_update by reflexivity.
  now destruct (field (JDict kvs) "availabilityItems").
Qed.

Lemma all_items_pruned (data : json) :
  all_items (prune data) = filter bookable (all_items data).
Proof.
  destruct data as [| | | | | |kvs]; try reflexivity.
  unfold all_items, staff_entries, prune. rewrite field_update by reflexivity.
  destruct (field (JDict kvs) "staffAvailabilityResponse") as [| | | | |staffs|];
    try reflexivity.
  cbn [prune_staffs elements].
  induction staffs as [|staff rest IH]; [reflexivity|].
  cbn [map flat_map]. now rewrite filter_app, items_of_pruned, IH.
Qed.

(** BUSY and OUT_OF_OFFICE items are invisible to the parser: deleting
    them from the item list of every staff entry of a response,
    whatever else the response, its staff entries and its items hold,
    changes neither the slots returned nor the exception raised. *)
Theorem available_slots_ignores_excluded_items (data : json) :
  all_items (prune data) = filter bookable (all_items data)
  /\ available_slots (prune data) false = available_slots data false.
Proof.
  split; [apply all_items_pruned|].
  destruct data as [| | | | | |kvs]; try reflexivity.
  unfold available_slots, prune, get, get_default. rewrite assoc_update.
  destruct (assoc "staffAvailabilityResponse" kvs) as [v|]; cbn [option_map rbind];
    [|reflexivity].
  destruct v as [| | | | |staffs|]; try reflexivity.
  cbn [prune_staffs truthy].
  destruct staffs as [|staff rest]; [reflexivity|].
  cbn [map negb iter rbind]. apply (parse_staffs_pruned (staff :: rest)).
Qed.

(** On a response of the upstream shape the parser raises nothing but
    [ValueError], and it raises exactly when the response is not
    structurally valid; on a valid one it returns the bookable items. *)
Theorem available_slots_accepts_exactly_the_valid
  (data : json)
  (Hshape : response_shape data = true) :
  (response_valid data = true
   /\ available_slots data false = Ok (expected_slots data))
  \/ (response_valid data = false
      /\ exists msg, available_slots data false = Err (ValueError msg)).
Proof.
  destruct (response_valid data) eqn:Hv.
  - left. split; [reflexivity | now apply available_slots_complete].
  - right. split; [reflexivity|].
    destruct (available_slots_shape data Hshape) as [(slots & Hok) | (msg & Herr & _)];
      [|eauto].
    apply available_slots_sound in Hok as (_ & Ht & Hs).
    unfold response_valid in Hv. rewrite Hshape, Ht, Hs in Hv. discriminate.
Qed.

Lemma available_slots_accepts_exactly_the_valid_witness :
  ((response_valid Sample.mixed = true
    /\ available_slots Sample.mixed false = Ok (expected_slots Sample.mixed))
   \/ (response_valid Sample.mixed = false
       /\ exists msg, available_slots Sample.mixed false = Err (ValueError msg)))
  /\ ((response_valid Sample.free_item_without_end = true
       /\ available_slots Sample.free_item_without_end false
          = Ok (expected_slots Sample.free_item_without_end))
      \/ (response_valid Sample.free_item_without_end = false
          /\ exists msg,
               available_slots Sample.free_item_without_end false
               = Err (ValueError msg))).
Proof.
  split.
  - apply (available_slots_accepts_exactly_the_valid Sample.mixed). reflexivity.
  - apply (available_slots_accepts_exactly_the_valid Sample.free_item_without_end).
    reflexivity.
Defined.

(** ** More on the formatter *)

Section Formatter.

Variables tz local : zone.

Lemma format_slots_acc (slots : list slot) :
  forall acc,
    format_slots tz local slots acc
    = (lines <- format_slots tz local slots [] ;; Ok (acc ++ lines)%list).
Proof.
  induction slots as [|s rest IH]; intros acc; cbn [format_slots].
  - cbn [rbind]. now rewrite app_nil_r.
  - destruct (format_slot tz local s) as [line|e]; cbn [rbind]; [|reflexivity].
    rewrite (IH (acc ++ [line])%list), (IH ([] ++ [line])%list).
    destruct (format_slots tz local rest []) as [r|e]; cbn [rbind]; [|reflexivity].
    now rewrite <- !app_assoc.
Qed.

Lemma format_slots_lines (slots : list slot) (lines : list string) :
  format_slots tz local slots [] = Ok lines
  <-> Forall2 (fun s line => format_slot tz local s = Ok line) slots lines.
Proof.
  revert lines. induction slots as [|s rest IH]; intros lines; cbn [format_slots].
  - split; intros H.
    + inversion H. constructor.
    + inversion H. reflexivity.
  - destruct (format_slot tz local s) as [line|e] eqn:Es; cbn [rbind app].
    + rewrite format_slots_acc.
      destruct (format_slots tz local rest []) as [r|e] eqn:Er; cbn [rbind app].
      * split; intros H.
        -- inversion H; subst lines. constructor; [exact Es | now apply IH].
        -- inversion H as [|s' line' rest' lines' Hs Hrest]; subst.
           rewrite Es in Hs. inversion Hs; subst line'.
           apply IH in Hrest. now inversion Hrest.
      * split; intros H; [discriminate H|].
        inversion H as [|s' line' rest' lines' Hs Hrest]; subst.
        apply IH in Hrest. discriminate Hrest.
    + split; intros H; [discriminate H|].
      inversion H as [|s' line' rest' lines' Hs Hrest]; subst.
      rewrite Es in Hs. discriminate Hs.
Qed.

Lemma format_slots_first_failure (before after : list slot) (s : slot) (e : exn) :
  Forall (fun b => exists line, format_slot tz local b = Ok line) before ->
  format_slot tz local s = Err e ->
  forall acc, format_slots tz local (before ++ s :: after) acc = Err e.
Proof.
  intros Hb Hs. induction Hb as [|b rest (line & Hline) _ IH]; intros acc;
    cbn [app format_slots].
  - now rewrite Hs.
  - rewrite Hline. cbn [rbind]. apply IH.
Qed.

End Formatter.

(** The formatter returns a text exactly when every slot can be
    rendered, and the text is then the lines of the slots, one per
    slot and in the order of the slots, joined by newlines. *)
Theorem format_is_one_line_per_slot
  (tz local : zone) (slots : list slot) (formatted : string) :
  _format_available_slots tz local slots = Ok formatted
  <-> exists lines,
        Forall2 (fun s line => format_slot tz local s = Ok line) slots lines
        /\ formatted = String.concat nl lines.
Proof.
  unfold _format_available_slots. split.
  - intros H.
    destruct (format_slots tz local slots []) as [lines|e] eqn:E; [|discriminate H].
    cbn [rbind] in H. inversion H. exists lines.
    split; [now apply format_slots_lines | reflexivity].
  - intros (lines & Hl & ->). apply format_slots_lines in Hl. now rewrite Hl.
Qed.

(** Formatting is all or nothing: when a slot cannot be rendered, the
    formatter raises the exception of the first such slot, and
    [_parse_data] ends there, before the "slots found" log entry and
    before any notification, also for the slots that could be
    rendered. *)
Theorem one_unreadable_timestamp_silences_the_cycle
  (cfg : settings) (w : world) (data : json) (test : bool)
  (before after : list slot) (s : slot) (e : exn)
  (Hslots : available_slots data test = Ok (before ++ s :: after)%list)
  (Hbefore : Forall (fun b => exists line,
                format_slot (TIMEZONE cfg) (local_zone w) b = Ok line) before)
  (Hbad : format_slot (TIMEZONE cfg) (local_zone w) s = Err e) :
  _format_available_slots (TIMEZONE cfg) (local_zone w) (before ++ s :: after) = Err e
  /\ _parse_data cfg w data test = ([], Err e).
Proof.
  assert (Hf : _format_available_slots (TIMEZONE cfg) (local_zone w)
                 (before ++ s :: after) = Err e).
  { unfold _format_available_slots.
    now rewrite (format_slots_first_failure _ _ before after s e Hbefore Hbad). }
  split; [exact Hf|].
  destruct (before ++ s :: after)%list as [|s0 rest] eqn:El.
  - destruct before; discriminate El.
  - now apply _parse_data_unformatted with (s := s0) (rest := rest).
Qed.

Lemma one_unreadable_timestamp_silences_the_cycle_witness :
  _format_available_slots (TIMEZONE Sample.two_recipients) (local_zone Sample.quiet)
    ([Slot (JStr "2024-10-21T17:00:00+00:00") (JStr "2024-10-21T17:30:00+00:00")]
     ++ [Slot (JStr "tomorrow") (JStr "2024-10-22T18:30:00+00:00")])
  = Err (ValueError "Invalid isoformat string: tomorrow")
  /\ _parse_data Sample.two_recipients Sample.quiet
       (Sample.response_of
          [Sample.staff_of
             [Sample.item Sample.AVAILABLE "2024-10-21T17:00:00+00:00"
                "2024-10-21T17:30:00+00:00";
              Sample.item Sample.AVAILABLE "tomorrow" "2024-10-22T18:30:00+00:00"]])
       false
     = ([], Err (ValueError "Invalid isoformat string: tomorrow")).
Proof.
  apply (one_unreadable_timestamp_silences_the_cycle Sample.two_recipients Sample.quiet
           (Sample.response_of
              [Sample.staff_of
                 [Sample.item Sample.AVAILABLE "2024-10-21T17:00:00+00:00"
                    "2024-10-21T17:30:00+00:00";
                  Sample.item Sample.AVAILABLE "tomorrow" "2024-10-22T18:30:00+00:00"]])
           false
           [Slot (JStr "2024-10-21T17:00:00+00:00") (JStr "2024-10-21T17:30:00+00:00")]
           []
           (Slot (JStr "tomorrow") (JStr "2024-10-22T18:30:00+00:00"))
           (ValueError "Invalid isoformat string: tomorrow")).
  - vm_compute. reflexivity.
  - constructor; [|constructor]. exists "Oct 21 10:00AM - 10:30AM".
    vm_compute. reflexivity.
  - vm_compute. reflexivity.
Defined.

Lemma astimezone_zone_qualified (tz local1 local2 : zone) (v : json) (dt : datetime) :
  zone_qualified v = true ->
  fromisoformat v = Ok dt ->
  astimezone local1 tz dt = astimezone local2 tz dt.
Proof.
  unfold zone_qualified. intros Hq Hdt. rewrite Hdt in Hq.
  unfold astimezone. destruct (utcoffset dt); [reflexivity | discriminate Hq].
Qed.

Lemma format_slot_zone_qualified (tz local1 local2 : zone) (s : slot) :
  slot_zone_qualified s = true ->
  format_slot tz local1 s = format_slot tz local2 s.
Proof.
  unfold slot_zone_qualified, format_slot. intros H.
  apply andb_prop in H as (Hs & He).
  destruct (fromisoformat (startDateTime s)) as [a|e] eqn:Ea; cbn [rbind]; [|reflexivity].
  rewrite (astimezone_zone_qualified tz local1 local2 _ _ Hs Ea).
  destruct (astimezone local2 tz a); cbn [rbind]; [|reflexivity].
  destruct (fromisoformat (endDateTime s)) as [b|e] eqn:Eb; cbn [rbind]; [|reflexivity].
  now rewrite (astimezone_zone_qualified tz local1 local2 _ _ He Eb).
Qed.

(** When every timestamp carries its UTC offset, in the form
    [YYYY-MM-DD?HH:MM:SS+HH:MM], the text does not depend on the time
    zone of the host: any two hosts render the same slots alike, and
    fail alike when a conversion leaves the years 1 to 9999. *)
Theorem format_of_zone_qualified_slots_ignores_the_host
  (tz local1 local2 : zone) (slots : list slot)
  (Hqualified : forallb slot_zone_qualified slots = true) :
  _format_available_slots tz local1 slots = _format_available_slots tz local2 slots.
Proof.
  unfold _format_available_slots. f_equal.
  generalize (@nil string) as acc.
  induction slots as [|s rest IH]; intros acc; cbn [format_slots]; [reflexivity|].
  cbn [forallb] in Hqualified. apply andb_prop in Hqualified as (Hs & Hrest).
  rewrite (format_slot_zone_qualified tz local1 local2 s Hs).
  destruct (format_slot tz local2 s); cbn [rbind]; [now apply IH | reflexivity].
Qed.

Lemma format_of_zone_qualified_slots_ignores_the_host_witness :
  _format_available_slots America_Los_Angeles UTC (expected_slots Sample.mixed)
  = _format_available_slots America_Los_Angeles (fixed_offset (- (7 * 3600)))
      (expected_slots Sample.mixed).
Proof.
  apply (format_of_zone_qualified_slots_ignores_the_host America_Los_Angeles UTC
           (fixed_offset (- (7 * 3600))) (expected_slots Sample.mixed)).
  reflexivity.
Defined.

(** ** More on the fan-out *)

Lemma lstrip_head (cs : list ascii) : starts_with_whitespace (lstrip cs) = false.
Proof.
  induction cs as [|c rest IH]; [reflexivity|]. cbn [lstrip].
  destruct (whitespace c) eqn:E; [exact IH | cbn; exact E].
Qed.

Lemma lstrip_suffix (cs : list ascii) : exists pre, cs = (pre ++ lstrip cs)%list.
Proof.
  induction cs as [|c rest (pre & IH)]; [now exists []|]. cbn [lstrip].
  destruct (whitespace c).
  - exists (c :: pre). cbn. now rewrite <- IH.
  - now exists [].
Qed.

Lemma strip_chars (s : string) :
  list_ascii_of_string (strip s)
  = rev (lstrip (rev (lstrip (list_ascii_of_string s)))).
Proof. unfold strip. apply list_ascii_of_string_of_list_ascii. Qed.

(** What [strip] returns has no whitespace at either end. *)
Lemma strip_trimmed (s : string) : trimmed (strip s) = true.
Proof.
  unfold trimmed. rewrite strip_chars, rev_involutive, lstrip_head.
  set (x := lstrip (list_ascii_of_string s)).
  destruct (lstrip_suffix (rev x)) as (pre & Hpre).
  apply (f_equal (@rev ascii)) in Hpre. rewrite rev_involutive, rev_app_distr in Hpre.
  destruct (rev (lstrip (rev x))) as [|c y] eqn:Ey; [reflexivity|].
  pose proof (lstrip_head (list_ascii_of_string s)) as Hx. fold x in Hx.
  rewrite Hpre in Hx. cbn in Hx |- *. now rewrite Hx.
Qed.

Lemma attempted_incl (send : string -> result string) (tos : list string) :
  incl (attempted send tos) tos.
Proof.
  induction tos as [|to rest IH]; [easy|]. cbn [attempted].
  destruct (send to).
  - intros x [<-|Hx]; [now left | right; now apply IH].
  - intros x [<-|[]]. now left.
Qed.

(** The gateway calls of [send_notification], whatever becomes of the
    client. *)
Lemma send_notification_calls_any (cfg : settings) (w : world) (message : string) :
  gateway_calls (fst (send_notification cfg w message))
  = match Client w (ACCOUNT_SID cfg) (AUTH_TOKEN cfg) with
    | Ok _ =>
        map (MessagesCreate (TWILIO_PHONE_NUMBER cfg) message)
          (attempted (messages_create w (TWILIO_PHONE_NUMBER cfg) message)
             (targets (RECIPIENT_PHONE_NUMBERS cfg)))
    | Err _ => []
    end.
Proof.
  destruct (Client w (ACCOUNT_SID cfg) (AUTH_TOKEN cfg)) as [[]|e] eqn:HC.
  - now apply send_notification_calls.
  - unfold send_notification. rewrite HC.
    destruct (RECIPIENT_PHONE_NUMBERS cfg); reflexivity.
Qed.

(** Whatever happens, each call of the gateway made by
    [send_notification] is from the configured number, carries the
    message unchanged, and goes to a configured recipient with the
    surrounding whitespace removed; none goes to a blank recipient. *)
Theorem every_gateway_call_is_to_a_stripped_recipient
  (cfg : settings) (w : world) (message : string) (ev : event)
  (Hev : In ev (fst (send_notification cfg w message)))
  (Hcall : is_gateway_call ev = true) :
  exists recipient,
    In recipient (RECIPIENT_PHONE_NUMBERS cfg)
    /\ ev = MessagesCreate (TWILIO_PHONE_NUMBER cfg) message (strip recipient)
    /\ strip recipient <> ""
    /\ trimmed (strip recipient) = true.
Proof.
  assert (Hin : In ev (gateway_calls (fst (send_notification cfg w message)))).
  { apply filter_In. now split. }
  rewrite send_notification_calls_any in Hin.
  destruct (Client w (ACCOUNT_SID cfg) (AUTH_TOKEN cfg)); [|now contradiction Hin].
  apply in_map_iff in Hin as (to & <- & Hto).
  apply attempted_incl in Hto. unfold targets in Hto.
  apply filter_In in Hto as (Hto & Hne).
  apply in_map_iff in Hto as (r & <- & Hr).
  exists r. repeat split; [exact Hr | | apply strip_trimmed].
  intros E. rewrite E in Hne. discriminate Hne.
Qed.

Lemma every_gateway_call_is_to_a_stripped_recipient_witness :
  exists recipient,
    In recipient (RECIPIENT_PHONE_NUMBERS Sample.three_recipients)
    /\ MessagesCreate "+15550000" "hello" "+15550002"
       = MessagesCreate (TWILIO_PHONE_NUMBER Sample.three_recipients) "hello"
           (strip recipient)
    /\ strip recipient <> ""
    /\ trimmed (strip recipient) = true.
Proof.
  apply (every_gateway_call_is_to_a_stripped_recipient Sample.three_recipients
           Sample.second_send_fails "hello"
           (MessagesCreate "+15550000" "hello" "+15550002")).
  - vm_compute. right. right. left. reflexivity.
  - reflexivity.
Defined.

Section Deliveries.

Variable cfg : settings.
Variable w : world.
Variable message : string.

Local Abbreviation send := (messages_create w (TWILIO_PHONE_NUMBER cfg) message).

Lemma send_each_sent_logs (recipients : list string) :
  filter is_sent_log (fst (send_each cfg w message recipients))
  = map sent_entry (delivered send (targets recipients)).
Proof.
  unfold targets.
  induction recipients as [|r rest IH]; [reflexivity|].
  cbn [send_each map filter].
  destruct (strip r =? "")%string; cbn [negb]; [exact IH|].
  cbn [delivered].
  destruct (send (strip r)) as [sid|e]; [|reflexivity].
  cbn. destruct (send_each cfg w message rest) as [t res] eqn:E.
  cbn in IH |- *. now rewrite IH.
Qed.

Lemma delivered_then_failure (tos : list string) :
  exists tail,
    attempted send tos = (map fst (delivered send tos) ++ tail)%list
    /\ (tail = [] \/ exists to e, tail = [to] /\ send to = Err e).
Proof.
  induction tos as [|to rest (tail & IH & Htail)]; [exists []; split; [reflexivity | now left]|].
  cbn [attempted delivered]. destruct (send to) as [sid|e] eqn:E.
  - exists tail. cbn. now rewrite IH.
  - exists [to]. split; [reflexivity|]. right. eauto.
Qed.

Lemma send_each_blank (recipients : list string) :
  targets recipients = [] -> send_each cfg w message recipients = ([], Ok tt).
Proof.
  unfold targets.
  induction recipients as [|r rest IH]; [reflexivity|].
  cbn [send_each map filter].
  destruct (strip r =? "")%string; cbn [negb]; [exact IH | discriminate].
Qed.

End Deliveries.

Lemma send_notification_trace (cfg : settings) (w : world) (message : string) :
  Client w (ACCOUNT_SID cfg) (AUTH_TOKEN cfg) = Ok tt ->
  RECIPIENT_PHONE_NUMBERS cfg <> [] ->
  fst (send_notification cfg w message)
  = (fst (send_each cfg w message (RECIPIENT_PHONE_NUMBERS cfg))
     ++ match first_failure (messages_create w (TWILIO_PHONE_NUMBER cfg) message)
                (targets (RECIPIENT_PHONE_NUMBERS cfg)) with
        | Some e => [Log ERROR (SmsFailed e)]
        | None => []
        end)%list.
Proof.
  intros HC Hne. unfold send_notification.
  pose proof (send_each_result cfg w message (RECIPIENT_PHONE_NUMBERS cfg)) as Hres.
  destruct (RECIPIENT_PHONE_NUMBERS cfg) as [|r rest]; [now contradiction Hne|].
  rewrite HC. cbn [lift bind].
  destruct (send_each cfg w message (r :: rest)) as [t res]. cbn [snd fst] in *.
  destruct (first_failure _ _); subst res; cbn; [reflexivity | now rewrite app_nil_r].
Qed.

(** Once the Twilio client is constructed, the "notification sent" log
    entries are those of the recipients delivered before the first
    failing send, each with the SID Twilio returned, in order; and the
    gateway was called for exactly these recipients, followed by the
    failing one if a send failed. *)
Theorem delivered_messages_are_logged
  (cfg : settings) (w : world) (message : string)
  (Hclient : Client w (ACCOUNT_SID cfg) (AUTH_TOKEN cfg) = Ok tt) :
  let send := messages_create w (TWILIO_PHONE_NUMBER cfg) message in
  let sent := delivered send (targets (RECIPIENT_PHONE_NUMBERS cfg)) in
  filter is_sent_log (fst (send_notification cfg w message)) = map sent_entry sent
  /\ exists tail,
       map call_to (gateway_calls (fst (send_notification cfg w message)))
       = (map fst sent ++ tail)%list
       /\ (tail = [] \/ exists to e, tail = [to] /\ send to = Err e).
Proof.
  intros send sent. split.
  - destruct (RECIPIENT_PHONE_NUMBERS cfg) as [|r rest] eqn:ER.
    + unfold send_notification. rewrite ER. reflexivity.
    + rewrite send_notification_trace by (try exact Hclient; rewrite ER; discriminate).
      rewrite filter_app, ER, send_each_sent_logs.
      destruct (first_failure _ _); cbn [filter is_sent_log]; now rewrite app_nil_r.
  - rewrite (send_notification_calls cfg w message Hclient), map_map.
    cbn [call_to]. rewrite map_id.
    apply delivered_then_failure.
Qed.

Lemma delivered_messages_are_logged_witness :
  filter is_sent_log
    (fst (send_notification Sample.three_recipients Sample.second_send_fails "hello"))
  = map sent_entry
      (delivered (messages_create Sample.second_send_fails
                    (TWILIO_PHONE_NUMBER Sample.three_recipients) "hello")
         (targets (RECIPIENT_PHONE_NUMBERS Sample.three_recipients)))
  /\ exists tail,
       map call_to
         (gateway_calls
            (fst (send_notification Sample.three_recipients Sample.second_send_fails
                    "hello")))
       = (map fst
            (delivered (messages_create Sample.second_send_fails
                          (TWILIO_PHONE_NUMBER Sample.three_recipients) "hello")
               (targets (RECIPIENT_PHONE_NUMBERS Sample.three_recipients)))
          ++ tail)%list
       /\ (tail = []
           \/ exists to e,
                tail = [to]
                /\ messages_create Sample.second_send_fails
                     (TWILIO_PHONE_NUMBER Sample.three_recipients) "hello" to = Err e).
Proof.
  apply (delivered_messages_are_logged Sample.three_recipients Sample.second_send_fails
           "hello").
  reflexivity.
Defined.

(** When no configured recipient is left after stripping, no message
    is sent.  An empty list is reported in the log, before the Twilio
    client is built.  A list of blank entries is passed over in
    silence when the Twilio client can be built; when it cannot, the
    failure of the client is logged, and that is all. *)
Theorem blank_recipients_are_passed_over
  (cfg : settings) (w : world) (message : string)
  (Hblank : targets (RECIPIENT_PHONE_NUMBERS cfg) = []) :
  gateway_calls (fst (send_notification cfg w message)) = []
  /\ send_notification cfg w message
     = (match RECIPIENT_PHONE_NUMBERS cfg with
        | [] => [Log ERROR NoRecipients]
        | _ :: _ =>
            match Client w (ACCOUNT_SID cfg) (AUTH_TOKEN cfg) with
            | Ok _ => []
            | Err e => [Log ERROR (SmsFailed e)]
            end
        end, Ok tt).
Proof.
  assert (H : send_notification cfg w message
              = (match RECIPIENT_PHONE_NUMBERS cfg with
                 | [] => [Log ERROR NoRecipients]
                 | _ :: _ =>
                     match Client w (ACCOUNT_SID cfg) (AUTH_TOKEN cfg) with
                     | Ok _ => []
                     | Err e => [Log ERROR (SmsFailed e)]
                     end
                 end, Ok tt)).
  { unfold send_notification.
    pose proof (send_each_blank cfg w message _ Hblank) as Hloop.
    destruct (RECIPIENT_PHONE_NUMBERS cfg) as [|r rest]; [reflexivity|].
    destruct (Client w (ACCOUNT_SID cfg) (AUTH_TOKEN cfg)) as [[]|e]; [|reflexivity].
    cbn [lift bind]. rewrite Hloop. reflexivity. }
  split; [|exact H]. rewrite H. cbn [fst].
  destruct (RECIPIENT_PHONE_NUMBERS cfg); [reflexivity|].
  now destruct (Client w (ACCOUNT_SID cfg) (AUTH_TOKEN cfg)).
Qed.

Lemma blank_recipients_are_passed_over_witness :
  (gateway_calls (fst (send_notification (Sample.cfg [" "; ""]) Sample.quiet "hello")) = []
   /\ send_notification (Sample.cfg [" "; ""]) Sample.quiet "hello" = ([], Ok tt))
  /\ (gateway_calls (fst (send_notification Sample.no_recipients Sample.quiet "hello")) = []
      /\ send_notification Sample.no_recipients Sample.quiet "hello"
         = ([Log ERROR NoRecipients], Ok tt))
  /\ (gateway_calls
         (fst (send_notification (Sample.cfg [" "; ""]) Sample.no_client "hello")) = []
      /\ send_notification (Sample.cfg [" "; ""]) Sample.no_client "hello"
         = ([Log ERROR (SmsFailed (TwilioException "Credentials are required"))], Ok tt)).
Proof.
  split; [|split].
  - apply (blank_recipients_are_passed_over (Sample.cfg [" "; ""]) Sample.quiet "hello");
      reflexivity.
  - apply (blank_recipients_are_passed_over Sample.no_recipients Sample.quiet "hello");
      reflexivity.
  - apply (blank_recipients_are_passed_over (Sample.cfg [" "; ""]) Sample.no_client
             "hello");
      reflexivity.
Defined.

(** ** More on the poll loop *)

Lemma fst_bind {A B} (m : M A) (k : A -> M B) :
  fst (bind m k)
  = match m with
    | (t, Ok a) => (t ++ fst (k a))%list
    | (t, Err _) => t
    end.
Proof. destruct m as [t [a|e]]; cbn; [now destruct (k a) | reflexivity]. Qed.

Lemma send_each_local (cfg : settings) (w : world) (message : string)
  (recipients : list string) :
  forallb is_local (fst (send_each cfg w message recipients)) = true.
Proof.
  induction recipients as [|r rest IH]; [reflexivity|]. cbn [send_each].
  destruct (negb (strip r =? "")%string); [|exact IH].
  destruct (messages_create w (TWILIO_PHONE_NUMBER cfg) message (strip r)); [|reflexivity].
  cbn. destruct (send_each cfg w message rest) as [t res]. exact IH.
Qed.

Lemma send_notification_local (cfg : settings) (w : world) (message : string) :
  forallb is_local (fst (send_notification cfg w message)) = true.
Proof.
  unfold send_notification.
  destruct (RECIPIENT_PHONE_NUMBERS cfg) as [|r rest]; [reflexivity|].
  destruct (Client w (ACCOUNT_SID cfg) (AUTH_TOKEN cfg)) as [[]|e]; [|reflexivity].
  cbn [lift bind].
  pose proof (send_each_local cfg w message (r :: rest)) as H.
  destruct (send_each cfg w message (r :: rest)) as [t [[]|e]]; cbn [fst] in H; cbn;
    [exact H|].
  rewrite forallb_app, H. reflexivity.
Qed.

Lemma _parse_data_local (cfg : settings) (w : world) (data : json) (test : bool) :
  forallb is_local (fst (_parse_data cfg w data test)) = true.
Proof.
  unfold _parse_data.
  destruct (available_slots data test) as [[|s rest]|e]; try reflexivity.
  cbn [lift bind app].
  destruct (_format_available_slots _ _ _) as [text|e]; [|reflexivity].
  cbn [lift bind log emit app].
  pose proof (send_notification_local cfg w (notification_text cfg text)) as H.
  destruct (send_notification cfg w (notification_text cfg text)) as [t res].
  cbn. exact H.
Qed.

Lemma parse_stage_local (cfg : settings) (w : world) (test : bool) (r : response) :
  forallb is_local (fst (parse_stage cfg w test r)) = true.
Proof.
  unfold parse_stage. destruct (json_body r) as [data|e]; [|reflexivity].
  cbn [lift bind log emit app].
  pose proof (_parse_data_local cfg w data test) as H.
  destruct (_parse_data cfg w data test) as [t res]. cbn. exact H.
Qed.

(** Local events are neither requests nor sleeps. *)
Lemma local_events (t : trace) :
  forallb is_local t = true ->
  filter is_sleep t = [] /\ filter is_post t = [] /\ filter is_get t = [].
Proof.
  induction t as [|ev rest IH]; [easy|]. cbn [forallb]. intros H.
  apply andb_prop in H as (Hev & Hrest). destruct (IH Hrest) as (Hs & Hp & Hg).
  destruct ev; try discriminate Hev; cbn; auto.
Qed.

Lemma parse_stage_calls (cfg : settings) (w : world) (test : bool) (r : response) :
  gateway_calls (fst (parse_stage cfg w test r)) <> [] ->
  exists data s rest,
    json_body r = Ok data /\ available_slots data test = Ok (s :: rest).
Proof.
  unfold parse_stage. destruct (json_body r) as [data|e]; [|now intros H; contradiction H].
  cbn [lift bind log emit app].
  destruct (_parse_data cfg w data test) as [t res] eqn:E. cbn.
  intros H. change t with (fst (t, res)) in H. rewrite <- E in H.
  apply _parse_data_calls_only_for_slots in H as (s & rest & _ & Hs & _). eauto.
Qed.

(** What becomes of a sleep: it is taken, when its length is in range
    and the operating system grants it, or it raises an exception that
    is not a [RequestException]. *)
Lemma time_sleep_outcome (w : world) (seconds : Z) :
  (time_sleep w seconds = ([TimeSleep seconds], Ok tt)
   /\ 0 <= seconds <= MAX_SLEEP
   /\ sleep_granted w seconds = true)
  \/ (exists e,
        time_sleep w seconds = ([], Err e)
        /\ is_RequestException e = false
        /\ (seconds < 0 \/ MAX_SLEEP < seconds \/ sleep_granted w seconds = false)).
Proof.
  unfold time_sleep.
  destruct (seconds <? - MAX_SLEEP) eqn:E1; cbn [orb].
  { right. eexists. repeat split. apply Z.ltb_lt in E1. unfold MAX_SLEEP in *. lia. }
  destruct (MAX_SLEEP <? seconds) eqn:E2.
  { right. eexists. repeat split. apply Z.ltb_lt in E2. lia. }
  destruct (seconds <? 0) eqn:E3.
  { right. eexists. repeat split. apply Z.ltb_lt in E3. lia. }
  apply Z.ltb_ge in E2, E3.
  destruct (sleep_granted w seconds) eqn:E4.
  - left. repeat split; [exact E3 | exact E2].
  - right. eexists. repeat split. right. right. reflexivity.
Qed.

(** Every way an iteration can go, with its trace.  [close] is the
    code after the [try] block, [fail] the outer handler. *)
Lemma iteration_normal_form
  (cfg : settings) (polling_interval : Z) (test : bool) (w : world) :
  let sleep := time_sleep w polling_interval in
  let close (t : trace) : M unit :=
    ((t ++ Log INFO (Waiting polling_interval) :: fst sleep)%list, snd sleep) in
  let fail (t : trace) (e : exn) : M unit :=
    if is_RequestException e
    then close (t ++ [Log ERROR (NetworkError e)])%list
    else (t, Err e) in
  iteration cfg polling_interval test w
  = match session_get w with
    | Err e => fail [HttpGet (GET_URL cfg)] e
    | Ok r1 =>
        if status_code r1 =? 200 then
          match session_post w with
          | Err e =>
              fail [HttpGet (GET_URL cfg); Log INFO GetSuccessful;
                    HttpPost (POST_URL cfg) (_create_post_payload cfg (now_utc w))] e
          | Ok r2 =>
              if status_code r2 =? 200 then
                match parse_stage cfg w test r2 with
                | (t, Ok _) => close (requests_ok cfg w ++ t)%list
                | (t, Err e) =>
                    if is_ValueError e
                    then close (requests_ok cfg w ++ t
                                ++ [Log ERROR (JsonParseFailed e)])%list
                    else fail (requests_ok cfg w ++ t)%list e
                end
              else
                (([HttpGet (GET_URL cfg); Log INFO GetSuccessful;
                   HttpPost (POST_URL cfg) (_create_post_payload cfg (now_utc w));
                   Log ERROR (PostFailed (status_code r2) (text r2))]
                  ++ fst sleep)%list, snd sleep)
          end
        else
          (([HttpGet (GET_URL cfg);
             Log ERROR (GetFailed (status_code r1) (text r1))] ++ fst sleep)%list,
           snd sleep)
    end.
Proof.
  cbv zeta. unfold iteration, try_block, requests_ok.
  destruct (time_sleep_outcome w polling_interval)
    as [(Hsl & _) | (es & Hsl & Hes & _)];
    rewrite Hsl;
    (destruct (session_get w) as [r1|e]; cbn [lift emit log bind];
     [ destruct (status_code r1 =? 200); cbn [negb lift emit log bind];
       [ destruct (session_post w) as [r2|e]; cbn [lift emit log bind];
         [ destruct (status_code r2 =? 200); cbn [negb lift emit log bind];
           [ destruct (parse_stage cfg w test r2) as [t [[]|e]];
             [ | destruct (is_ValueError e) eqn:Ev;
                 [ | destruct (is_RequestException e) eqn:Er ] ]
           | ]
         | destruct (is_RequestException e) eqn:Er ]
       | ]
     | destruct (is_RequestException e) eqn:Er ]);
    cbn -[GET_URL POST_URL _create_post_payload];
    rewrite ?Ev, ?Er, ?Hes;
    cbn -[GET_URL POST_URL _create_post_payload];
    rewrite ?Ev, ?Er, ?Hes;
    cbn -[GET_URL POST_URL _create_post_payload];
    repeat rewrite <- app_assoc;
    cbn -[GET_URL POST_URL _create_post_payload];
    rewrite ?app_nil_r;
    reflexivity.
Qed.

(** Case analysis on the normal form of an iteration. *)
Ltac split_status :=
  match goal with
  | |- context [status_code ?r =? 200] => destruct (status_code r =? 200) eqn:?Hstatus
  end; cbv iota.

Ltac split_handler :=
  match goal with
  | |- context [is_RequestException ?e] => destruct (is_RequestException e) eqn:?Hr
  end; cbv iota.

Ltac split_stage cfg test w :=
  match goal with
  | |- context [parse_stage cfg w test ?r] =>
      let Hl := fresh "Hl" in
      pose proof (parse_stage_local cfg w test r) as Hl;
      apply local_events in Hl as (?Hsleeps & ?Hposts & ?Hgets);
      destruct (parse_stage cfg w test r) as [?t [[]|?e]] eqn:?Hstage;
      cbn [fst] in *; cbv iota;
      [ | match goal with
          | |- context [is_ValueError ?e] => destruct (is_ValueError e) eqn:?Hv
          end; cbv iota; [ | split_handler ] ]
  end.

Ltac iteration_by_cases cfg pi test w :=
  rewrite (iteration_normal_form cfg pi test w); cbv zeta;
  destruct (time_sleep_outcome w pi)
    as [(?Hslept & ?Hrange & ?Hgranted) | (?es & ?Hslept & ?Hes & ?Hrefused)];
  rewrite Hslept;
  (destruct (session_get w) as [?r1|?e] eqn:?Hget; cbv iota;
   [ split_status;
     [ destruct (session_post w) as [?r2|?e] eqn:?Hpost; cbv iota;
       [ split_status; [ split_stage cfg test w | ]
       | split_handler ]
     | ]
   | split_handler ]);
  unfold requests_ok;
  cbn -[GET_URL POST_URL _create_post_payload];
  repeat rewrite filter_app;
  cbn -[GET_URL POST_URL _create_post_payload].

Lemma negative_interval_iteration
  (cfg : settings) (polling_interval : Z) (test : bool) (w : world) :
  polling_interval < 0 ->
  (exists e, snd (iteration cfg polling_interval test w) = Err e)
  /\ filter is_sleep (fst (iteration cfg polling_interval test w)) = [].
Proof.
  intros Hneg.
  iteration_by_cases cfg polling_interval test w; try lia;
    rewrite ?Hsleeps; split; eauto.
Qed.

Lemma iteration_requests
  (cfg : settings) (polling_interval : Z) (test : bool) (w : world) :
  filter is_get (fst (iteration cfg polling_interval test w)) = [HttpGet (GET_URL cfg)]
  /\ filter is_post (fst (iteration cfg polling_interval test w))
     = match session_get w with
       | Ok r1 =>
           if status_code r1 =? 200
           then [HttpPost (POST_URL cfg) (_create_post_payload cfg (now_utc w))]
           else []
       | Err _ => []
       end.
Proof.
  iteration_by_cases cfg polling_interval test w;
    rewrite ?Hgets, ?Hposts; split; reflexivity.
Qed.

(** An iteration issues exactly one GET, for the booking page; it
    issues a POST, one and with the payload of the current clock
    reading, exactly when the GET was answered 200. *)
Theorem requests_of_an_iteration
  (cfg : settings) (polling_interval : Z) (test : bool) (w : world) :
  filter is_get (fst (iteration cfg polling_interval test w)) = [HttpGet (GET_URL cfg)]
  /\ filter is_post (fst (iteration cfg polling_interval test w))
     = match session_get w with
       | Ok r1 =>
           if status_code r1 =? 200
           then [HttpPost (POST_URL cfg) (_create_post_payload cfg (now_utc w))]
           else []
       | Err _ => []
       end.
Proof. apply iteration_requests. Qed.

(** A notification is sent only in an iteration whose two requests
    were both answered 200, whose body decoded, and whose slot list is
    not empty: never on a failed or refused request. *)
Theorem notification_needs_both_requests
  (cfg : settings) (polling_interval : Z) (test : bool) (w : world)
  (Hcalls : gateway_calls (fst (iteration cfg polling_interval test w)) <> []) :
  exists r1 r2 data s rest,
    session_get w = Ok r1 /\ status_code r1 = 200
    /\ session_post w = Ok r2 /\ status_code r2 = 200
    /\ json_body r2 = Ok data
    /\ available_slots data test = Ok (s :: rest).
Proof.
  revert Hcalls. unfold gateway_calls.
  iteration_by_cases cfg polling_interval test w;
    intros H; try (now contradiction H);
    rewrite ?app_nil_r in H;
    match goal with
    | Hst : parse_stage cfg w test ?r = (?t, _) |- _ =>
        destruct (parse_stage_calls cfg w test r) as (data & s & rest & Hd & Hs);
        [ rewrite Hst; exact H | ]
    end;
    repeat match goal with
           | Hq : (status_code _ =? 200) = true |- _ => apply Z.eqb_eq in Hq
           end;
    do 5 eexists; repeat split; eassumption.
Qed.

Lemma notification_needs_both_requests_witness :
  exists r1 r2 data s rest,
    session_get (Sample.serving Sample.mixed) = Ok r1 /\ status_code r1 = 200
    /\ session_post (Sample.serving Sample.mixed) = Ok r2 /\ status_code r2 = 200
    /\ json_body r2 = Ok data
    /\ available_slots data false = Ok (s :: rest).
Proof.
  apply (notification_needs_both_requests Sample.two_recipients 60 false
           (Sample.serving Sample.mixed)).
  vm_compute. discriminate.
Defined.

Lemma iteration_done_sleep
  (cfg : settings) (polling_interval : Z) (test : bool) (w : world) :
  snd (iteration cfg polling_interval test w) = Ok tt ->
  0 <= polling_interval
  /\ filter is_sleep (fst (iteration cfg polling_interval test w))
     = [TimeSleep polling_interval]
  /\ hd_error (rev (fst (iteration cfg polling_interval test w)))
     = Some (TimeSleep polling_interval).
Proof.
  iteration_by_cases cfg polling_interval test w;
    intros H; try discriminate H;
    (split; [apply Hrange|]);
    rewrite ?Hsleeps; (split; [reflexivity|]);
    rewrite ?rev_app_distr; reflexivity.
Qed.

(** An iteration that ends normally has slept exactly once, for the
    polling interval, and the sleep is the last thing it did; the
    interval was then not negative. *)
Theorem completed_iteration_sleeps_once
  (cfg : settings) (polling_interval : Z) (test : bool) (w : world)
  (Hdone : snd (iteration cfg polling_interval test w) = Ok tt) :
  0 <= polling_interval
  /\ filter is_sleep (fst (iteration cfg polling_interval test w))
     = [TimeSleep polling_interval]
  /\ hd_error (rev (fst (iteration cfg polling_interval test w)))
     = Some (TimeSleep polling_interval).
Proof. now apply iteration_done_sleep. Qed.

Lemma completed_iteration_sleeps_once_witness :
  0 <= 60
  /\ filter is_sleep
       (fst (iteration Sample.two_recipients 60 false (Sample.serving Sample.mixed)))
     = [TimeSleep 60]
  /\ hd_error
       (rev (fst (iteration Sample.two_recipients 60 false (Sample.serving Sample.mixed))))
     = Some (TimeSleep 60).
Proof.
  apply (completed_iteration_sleeps_once Sample.two_recipients 60 false
           (Sample.serving Sample.mixed)).
  reflexivity.
Defined.

(** With a negative polling interval the loop does not survive its
    first iteration: [time.sleep] raises, no handler catches it, the
    process ends without having slept and the later iterations never
    start. *)
Theorem negative_polling_interval_ends_the_loop
  (cfg : settings) (polling_interval : Z) (test : bool) (w : world) (rest : list world)
  (Hnegative : polling_interval < 0) :
  exists e,
    check_availability cfg polling_interval test (w :: rest)
    = (fst (iteration cfg polling_interval test w), Some e)
    /\ filter is_sleep (fst (iteration cfg polling_interval test w)) = [].
Proof.
  destruct (negative_interval_iteration cfg polling_interval test w Hnegative)
    as ((e & He) & Hs).
  exists e. split; [|exact Hs].
  cbn [check_availability].
  destruct (iteration cfg polling_interval test w) as [t res]. cbn [snd fst] in *.
  now subst res.
Qed.

Lemma negative_polling_interval_ends_the_loop_witness :
  exists e,
    check_availability Sample.one_recipient (-5) false [Sample.get_503; Sample.quiet]
    = (fst (iteration Sample.one_recipient (-5) false Sample.get_503), Some e)
    /\ filter is_sleep (fst (iteration Sample.one_recipient (-5) false Sample.get_503))
       = [].
Proof.
  apply (negative_polling_interval_ends_the_loop Sample.one_recipient (-5) false
           Sample.get_503 [Sample.quiet]).
  lia.
Defined.

(** When the POST is answered with a status other than 200, and the
    polling interval is a length [time.sleep] accepts (from 0 to
    [MAX_SLEEP], and granted by the operating system), the iteration
    logs the failure and sleeps the polling interval: nothing is
    decoded or parsed, nobody is notified, and the loop goes on with
    its next iteration. *)
Theorem post_failure_skips_parse
  (cfg : settings) (polling_interval : Z) (test : bool)
  (w : world) (rest : list world) (r1 r2 : response)
  (Hinterval : 0 <= polling_interval <= MAX_SLEEP)
  (Hgranted : sleep_granted w polling_interval = true)
  (Hget : session_get w = Ok r1)
  (Hget200 : status_code r1 = 200)
  (Hpost : session_post w = Ok r2)
  (Hstatus : status_code r2 <> 200) :
  iteration cfg polling_interval test w
  = ([HttpGet (GET_URL cfg);
      Log INFO GetSuccessful;
      HttpPost (POST_URL cfg) (_create_post_payload cfg (now_utc w));
      Log ERROR (PostFailed (status_code r2) (text r2));
      TimeSleep polling_interval], Ok tt)
  /\ gateway_calls (fst (iteration cfg polling_interval test w)) = []
  /\ check_availability cfg polling_interval test (w :: rest)
     = ((fst (iteration cfg polling_interval test w)
         ++ fst (check_availability cfg polling_interval test rest))%list,
        snd (check_availability cfg polling_interval test rest)).
Proof.
  pose proof (iteration_post_status cfg polling_interval test w r1 r2
                Hinterval Hgranted Hget Hget200 Hpost Hstatus) as Hit.
  split; [exact Hit|]. split; [now rewrite Hit|].
  rewrite (check_availability_cons _ _ _ _ rest _ Hit). now rewrite Hit.
Qed.

Lemma post_failure_skips_parse_witness :
  iteration Sample.one_recipient 60 false
    (Sample.world_of UTC Sample.page (Sample.http 429 (Ok Sample.mixed)) Sample.delivers)
  = ([HttpGet (GET_URL Sample.one_recipient);
      Log INFO GetSuccessful;
      HttpPost (POST_URL Sample.one_recipient)
        (_create_post_payload Sample.one_recipient
           (now_utc (Sample.world_of UTC Sample.page (Sample.http 429 (Ok Sample.mixed))
                       Sample.delivers)));
      Log ERROR (PostFailed 429 "");
      TimeSleep 60], Ok tt)
  /\ gateway_calls
       (fst (iteration Sample.one_recipient 60 false
               (Sample.world_of UTC Sample.page (Sample.http 429 (Ok Sample.mixed))
                  Sample.delivers))) = []
  /\ check_availability Sample.one_recipient 60 false
       [Sample.world_of UTC Sample.page (Sample.http 429 (Ok Sample.mixed)) Sample.delivers;
        Sample.quiet]
     = ((fst (iteration Sample.one_recipient 60 false
                (Sample.world_of UTC Sample.page (Sample.http 429 (Ok Sample.mixed))
                   Sample.delivers))
         ++ fst (check_availability Sample.one_recipient 60 false [Sample.quiet]))%list,
        snd (check_availability Sample.one_recipient 60 false [Sample.quiet])).
Proof.
  apply (post_failure_skips_parse Sample.one_recipient 60 false
           (Sample.world_of UTC Sample.page (Sample.http 429 (Ok Sample.mixed))
              Sample.delivers)
           [Sample.quiet]
           {| status_code := 200; text := "";
              json_body := Err (JSONDecodeError "Expecting value") |}
           {| status_code := 429; text := ""; json_body := Ok Sample.mixed |}).
  - unfold MAX_SLEEP. lia.
  - reflexivity.
  - reflexivity.
  - reflexivity.
  - reflexivity.
  - cbn. lia.
Defined.

(** A [RequestException] raised by the GET, or by the POST after a GET
    answered 200, is caught by the outer handler: it is logged as a
    network error, nobody is notified, and, the polling interval being
    a length [time.sleep] accepts (from 0 to [MAX_SLEEP], and granted
    by the operating system), the iteration sleeps it and ends
    normally; when it is the GET that failed, no POST is issued. *)
Theorem transport_failure_is_logged_and_slept_over
  (cfg : settings) (polling_interval : Z) (test : bool) (w : world) (e : exn)
  (Hinterval : 0 <= polling_interval <= MAX_SLEEP)
  (Hgranted : sleep_granted w polling_interval = true)
  (Hraised : session_get w = Err e
             \/ exists r1, session_get w = Ok r1 /\ status_code r1 = 200
                           /\ session_post w = Err e)
  (Hclass : is_RequestException e = true) :
  snd (iteration cfg polling_interval test w) = Ok tt
  /\ gateway_calls (fst (iteration cfg polling_interval test w)) = []
  /\ (exists t,
        fst (iteration cfg polling_interval test w)
        = (t ++ [Log ERROR (NetworkError e);
                 Log INFO (Waiting polling_interval);
                 TimeSleep polling_interval])%list)
  /\ (session_get w = Err e ->
      filter is_post (fst (iteration cfg polling_interval test w)) = []).
Proof.
  destruct Hraised as [Hget | (r1 & Hget & H200 & Hpost)].
  - rewrite (iteration_catches_get_failure _ _ _ _ _ Hinterval Hgranted Hget Hclass).
    repeat split; try reflexivity. now exists [HttpGet (GET_URL cfg)].
  - rewrite (iteration_catches_post_failure _ _ _ _ _ _ Hinterval Hgranted
               Hget H200 Hpost Hclass).
    repeat split; try reflexivity.
    + now exists [HttpGet (GET_URL cfg); Log INFO GetSuccessful;
                  HttpPost (POST_URL cfg) (_create_post_payload cfg (now_utc w))].
    + intros Hget'. rewrite Hget in Hget'. discriminate.
Qed.

Lemma transport_failure_is_logged_and_slept_over_witness :
  snd (iteration Sample.one_recipient 60 false
         (Sample.world_of UTC Sample.page (Err (RequestException "timed out"))
            Sample.delivers)) = Ok tt
  /\ gateway_calls
       (fst (iteration Sample.one_recipient 60 false
               (Sample.world_of UTC Sample.page (Err (RequestException "timed out"))
                  Sample.delivers))) = []
  /\ (exists t,
        fst (iteration Sample.one_recipient 60 false
               (Sample.world_of UTC Sample.page (Err (RequestException "timed out"))
                  Sample.delivers))
        = (t ++ [Log ERROR (NetworkError (RequestException "timed out"));
                 Log INFO (Waiting 60);
                 TimeSleep 60])%list)
  /\ (session_get
        (Sample.world_of UTC Sample.page (Err (RequestException "timed out"))
           Sample.delivers) = Err (RequestException "timed out") ->
      filter is_post
        (fst (iteration Sample.one_recipient 60 false
                (Sample.world_of UTC Sample.page (Err (RequestException "timed out"))
                   Sample.delivers))) = []).
Proof.
  apply (transport_failure_is_logged_and_slept_over Sample.one_recipient 60 false
           (Sample.world_of UTC Sample.page (Err (RequestException "timed out"))
              Sample.delivers)
           (RequestException "timed out")).
  - unfold MAX_SLEEP. lia.
  - reflexivity.
  - right. eexists. repeat split; reflexivity.
  - reflexivity.
Defined.

(** A body that does not decode is handled by the inner handler, also
    when the exception is the [JSONDecodeError] of [requests], which is
    a [RequestException] as well: the iteration logs the parse
    failure, not a network error, notifies nobody and, the polling
    interval being a length [time.sleep] accepts (from 0 to
    [MAX_SLEEP], and granted by the operating system), sleeps it and
    ends normally. *)
Theorem undecodable_body_is_a_parse_failure
  (cfg : settings) (polling_interval : Z) (test : bool) (w : world)
  (r1 r2 : response) (e : exn)
  (Hinterval : 0 <= polling_interval <= MAX_SLEEP)
  (Hgranted : sleep_granted w polling_interval = true)
  (Hget : session_get w = Ok r1)
  (Hget200 : status_code r1 = 200)
  (Hpost : session_post w = Ok r2)
  (Hpost200 : status_code r2 = 200)
  (Hbody : json_body r2 = Err e)
  (Hclass : is_ValueError e = true) :
  iteration cfg polling_interval test w
  = ([HttpGet (GET_URL cfg);
      Log INFO GetSuccessful;
      HttpPost (POST_URL cfg) (_create_post_payload cfg (now_utc w));
      Log INFO PostSuccessful;
      Log ERROR (JsonParseFailed e);
      Log INFO (Waiting polling_interval);
      TimeSleep polling_interval], Ok tt).
Proof.
  assert (Hstage : parse_stage cfg w test r2 = ([], Err e)).
  { unfold parse_stage. now rewrite Hbody. }
  rewrite (iteration_catches_ValueError cfg polling_interval test w r1 r2 e
             Hinterval Hgranted Hget Hget200 Hpost Hpost200);
    rewrite ?Hstage; [reflexivity | reflexivity | exact Hclass].
Qed.

Lemma undecodable_body_is_a_parse_failure_witness :
  iteration Sample.one_recipient 60 true
    (Sample.world_of UTC Sample.page Sample.page Sample.delivers)
  = ([HttpGet (GET_URL Sample.one_recipient);
      Log INFO GetSuccessful;
      HttpPost (POST_URL Sample.one_recipient)
        (_create_post_payload Sample.one_recipient
           (now_utc (Sample.world_of UTC Sample.page Sample.page Sample.delivers)));
      Log INFO PostSuccessful;
      Log ERROR (JsonParseFailed (JSONDecodeError "Expecting value"));
      Log INFO (Waiting 60);
      TimeSleep 60], Ok tt).
Proof.
  apply (undecodable_body_is_a_parse_failure Sample.one_recipient 60 true
           (Sample.world_of UTC Sample.page Sample.page Sample.delivers)
           {| status_code := 200; text := "";
              json_body := Err (JSONDecodeError "Expecting value") |}
           {| status_code := 200; text := "";
              json_body := Err (JSONDecodeError "Expecting value") |}
           (JSONDecodeError "Expecting value"));
    try reflexivity. unfold MAX_SLEEP. lia.
Defined.





(** ** More on the payload builder *)

(** The request body depends on the clock only through the UTC date:
    two readings of the clock on the same day give the same body. *)
Theorem payload_changes_only_with_the_date
  (cfg : settings) (now1 now2 : datetime)
  (Hsame_day : ordinal now1 = ordinal now2) :
  _create_post_payload cfg now1 = _create_post_payload cfg now2.
Proof.
  unfold _create_post_payload. rewrite !strftime_midnight.
  unfold year, month, day, end_date, start_date, sub_days, add_days.
  cbn [ordinal]. now rewrite Hsame_day.
Qed.

Lemma payload_changes_only_with_the_date_witness :
  _create_post_payload Sample.one_recipient (make 2024 10 10 0 0 1 (Some 0))
  = _create_post_payload Sample.one_recipient (make 2024 10 10 23 59 59 (Some 0)).
Proof.
  apply (payload_changes_only_with_the_date Sample.one_recipient
           (make 2024 10 10 0 0 1 (Some 0)) (make 2024 10 10 23 59 59 (Some 0))).
  reflexivity.
Defined.

Lemma payload_dates_denote_the_window_witness :
  fromisoformat
    (field (field (_create_post_payload Sample.one_recipient
                     (make 2024 10 10 15 30 0 (Some 0))) "startDateTime") "dateTime")
  = Ok (mkDatetime (ordinal (make 2024 10 10 15 30 0 (Some 0)) - 1) 0 0 None)
  /\ fromisoformat
       (field (field (_create_post_payload Sample.one_recipient
                        (make 2024 10 10 15 30 0 (Some 0))) "endDateTime") "dateTime")
     = Ok (mkDatetime (ordinal (make 2024 10 10 15 30 0 (Some 0)) - 1 + 12) 0 0 None).
Proof.
  apply (payload_dates_denote_the_window Sample.one_recipient
           (make 2024 10 10 15 30 0 (Some 0))).
  vm_compute. split; [reflexivity | discriminate].
Defined.
